(** * fs/log.go: leveled logging of rclone, over logrus

    A shallow embedding of [src/fs/log.go] and the properties of its
    severity levels, formatter, field annotations, emitters and fallback
    printer. *)

From Stdlib Require Import ZArith NArith Lia Ascii String DecimalString DecimalN.
From stdpp Require Import base option list strings gmap.

Local Open Scope string_scope.
Local Open Scope N_scope.

(** ** Go primitives used by the file *)

(** [fmt]'s [%d] of an unsigned integer. *)
Definition fmt_d (n : N) : string := NilEmpty.string_of_uint (N.to_uint n).

(** Reading a decimal numeral back, to say that a string holds a number. *)
Definition atoi (s : string) : option N :=
  N.of_uint <$> NilEmpty.uint_of_string s.

(** [fmt]'s [%-6s]: left-justified, filled with spaces on the right up to the
    width; longer strings pass unchanged.  Go counts runes; the names
    formatted here are ASCII, where runes and bytes agree. *)
Fixpoint spaces (n : nat) : string :=
  match n with
  | O => ""
  | S n' => String " " (spaces n')
  end.

Definition fmt_pad_right (width : nat) (s : string) : string :=
  s +:+ spaces (width - String.length s).

(** Indexing a slice: [None] is the run-time panic "index out of range". *)
Definition index {A} (xs : list A) (i : N) : option A := xs !! N.to_nat i.

(** Conversion of an [int] to [byte], the underlying type of [LogLevel]. *)
Definition byte_of_int (n : Z) : N := Z.to_N (n mod 256).

(** ** Severity levels *)

(** [type LogLevel byte] *)
Definition LogLevel : Type := N.

Definition LogLevelEmergency : LogLevel := 0.
Definition LogLevelAlert : LogLevel := 1.
Definition LogLevelCritical : LogLevel := 2.
Definition LogLevelError : LogLevel := 3.
Definition LogLevelWarning : LogLevel := 4.
Definition LogLevelNotice : LogLevel := 5.
Definition LogLevelInfo : LogLevel := 6.
Definition LogLevelDebug : LogLevel := 7.

(** The slice literal is keyed by the constants 0..7 in order. *)
Definition logLevelToString : list string :=
  [ "EMERGENCY"; "ALERT"; "CRITICAL"; "ERROR";
    "WARNING"; "NOTICE"; "INFO"; "DEBUG" ].

Definition len {A} (xs : list A) : N := N.of_nat (length xs).

(** [func (l LogLevel) String() string] *)
Definition LogLevel_String (l : LogLevel) : option string :=
  if len logLevelToString <=? l
  then Some ("LogLevel(" +:+ fmt_d l +:+ ")")
  else index logLevelToString l.

(** The error value built by [errors.Errorf(format, s)]. *)
Inductive error : Type :=
| errors_Errorf (format : string) (arg : string).

(** The [range] loop of [Set]: [n] is the index of the head of [names]. *)
Fixpoint Set_loop (names : list string) (n : Z) (s : string) : option Z :=
  match names with
  | [] => None
  | name :: rest =>
      if negb (s =? "")%string && (name =? s)%string
      then Some n
      else Set_loop rest (n + 1)%Z s
  end.

(** [func (l *LogLevel) Set(s string) error]: the receiver after the call
    and the error returned ([None] is [nil]). *)
Definition LogLevel_Set (l : LogLevel) (s : string) : LogLevel * option error :=
  match Set_loop logLevelToString 0%Z s with
  | Some n => (byte_of_int n, None)
  | None => (l, Some (errors_Errorf "Unknown log level %q" s))
  end.

(** [func (l *LogLevel) Type() string] *)
Definition LogLevel_Type (l : LogLevel) : string := "string".

(** ** Values behind [interface{}] *)

(** What [fmt] can observe of a value that is neither a string nor a
    [LogValueItem]: its [%v] and [%+v] renderings and its [%T] type name. *)
Record rendering : Type := Rendering {
  shown_v : string;
  shown_plus_v : string;
  shown_T : string
}.

(** An [interface{}]: the nil interface, a string, a [LogValueItem], or any
    other value.  [LogValueItem] holds an [interface{}] itself. *)
Inductive any : Type :=
| nil_interface
| a_string (s : string)
| an_item (item : LogValueItem)
| a_value (r : rendering)
with LogValueItem : Type :=
| Build_LogValueItem (key : string) (value : any).

Definition key (j : LogValueItem) : string :=
  match j with Build_LogValueItem k _ => k end.

Definition value (j : LogValueItem) : any :=
  match j with Build_LogValueItem _ v => v end.

(** [func LogValue(key string, value interface{}) LogValueItem] *)
Definition LogValue (key : string) (value : any) : LogValueItem :=
  Build_LogValueItem key value.

(** [func (j LogValueItem) String() string] *)
Definition LogValueItem_String (j : LogValueItem) : string := "".

(** [fmt]'s [%v], [%+v] and [%T].  A [LogValueItem] is a [Stringer], so both
    [%v] and [%+v] print what its [String] method returns. *)
Definition fmt_v (a : any) : string :=
  match a with
  | nil_interface => "<nil>"
  | a_string s => s
  | an_item j => LogValueItem_String j
  | a_value r => shown_v r
  end.

Definition fmt_plus_v (a : any) : string :=
  match a with
  | nil_interface => "<nil>"
  | a_string s => s
  | an_item j => LogValueItem_String j
  | a_value r => shown_plus_v r
  end.

Definition fmt_T (a : any) : string :=
  match a with
  | nil_interface => "<nil>"
  | a_string _ => "string"
  | an_item _ => "fs.LogValueItem"
  | a_value r => shown_T r
  end.

(** [o != nil] on an [interface{}]. *)
Definition is_nil (a : any) : bool :=
  match a with nil_interface => true | _ => false end.

(** ** Configuration *)

(** Modelled from the spec: the type of [Config] is declared in another file
    of the package; section 6 of the spec gives the three fields this file
    reads. *)
Record ConfigInfo : Type := Build_ConfigInfo {
  Config_LogLevel : LogLevel;
  Config_UseJSONLog : bool;
  Config_EnableLogColors : bool
}.

(** ** Package time *)

Module time.

(** An instant, as the calendar date and clock that [Format] prints. *)
Record Time : Type := Build_Time {
  Year : Z; Month : N; Day : N; Hour : N; Minute : N; Second : N
}.

Fixpoint zeros (n : nat) : string :=
  match n with
  | O => ""
  | S n' => String "0" (zeros n')
  end.

(** [appendInt]: the decimal form of [x], filled with zeros on the left up
    to [width], after a minus sign when [x] is negative. *)
Definition appendInt (x : Z) (width : nat) : string :=
  let digits := fmt_d (Z.abs_N x) in
  (if (x <? 0)%Z then "-" else "") +:+
  zeros (width - String.length digits) +:+ digits.

(** Characters at which Go's layout scanner may start a chunk other than
    the six that [Format] below interprets. *)
Definition starts_other_chunk (c : ascii) : bool :=
  bool_decide (c ∈ [ "J"; "M"; "0"; "1"; "2"; "3"; "4"; "5"; "_"; "P"; "p";
                     "Z"; "."; "," ]%char).

(** Modelled from the spec: package time is not under src/.  The method
    [Format] of [Time], for the chunks [2006], [01], [02], [15], [04] and
    [05] of a layout; every other character is copied.  Section 4.2 of the
    spec reads the layout of [init] as YYYY-MM-DD HH:MM:SS. *)
Fixpoint Format (t : Time) (layout : string) : string :=
  match layout with
  | "" => ""
  | String "2" (String "0" (String "0" (String "6" rest))) =>
      appendInt (Year t) 4 +:+ Format t rest
  | String "0" (String "1" rest) =>
      appendInt (Z.of_N (Month t)) 2 +:+ Format t rest
  | String "0" (String "2" rest) =>
      appendInt (Z.of_N (Day t)) 2 +:+ Format t rest
  | String "1" (String "5" rest) =>
      appendInt (Z.of_N (Hour t)) 2 +:+ Format t rest
  | String "0" (String "4" rest) =>
      appendInt (Z.of_N (Minute t)) 2 +:+ Format t rest
  | String "0" (String "5" rest) =>
      appendInt (Z.of_N (Second t)) 2 +:+ Format t rest
  | String c rest => String c (Format t rest)
  end.

(** The layouts on which [Format] above is Go's: no chunk of the layout
    language other than the six interpreted ones begins anywhere in them
    (a [-] begins a zone chunk only before [07]). *)
Fixpoint interpreted (layout : string) : bool :=
  match layout with
  | "" => true
  | String "2" (String "0" (String "0" (String "6" rest))) => interpreted rest
  | String "0" (String "1" rest) => interpreted rest
  | String "0" (String "2" rest) => interpreted rest
  | String "1" (String "5" rest) => interpreted rest
  | String "0" (String "4" rest) => interpreted rest
  | String "0" (String "5" rest) => interpreted rest
  | String "-" (String "0" (String "7" _)) => false
  | String c rest => negb (starts_other_chunk c) && interpreted rest
  end.

(** A date and clock that a four-digit year and two-digit fields hold. *)
Definition civil (t : Time) : Prop :=
  (0 <= Year t <= 9999)%Z /\ 1 <= Month t <= 12 /\ 1 <= Day t <= 31 /\
  Hour t < 24 /\ Minute t < 60 /\ Second t < 60.

End time.

(** ** Package logrus: the types this file uses *)

Module logrus.

(** [type Level uint32], with the constants in the package's order. *)
Definition Level : Type := N.

Definition PanicLevel : Level := 0.
Definition FatalLevel : Level := 1.
Definition ErrorLevel : Level := 2.
Definition WarnLevel : Level := 3.
Definition InfoLevel : Level := 4.
Definition DebugLevel : Level := 5.
Definition TraceLevel : Level := 6.

(** Modelled from the spec: [Level.String] belongs to package logrus, which
    is not under src/.  The package names its levels in lower case, and any
    other number ["unknown"]; section 4.2 of the spec has the formatter turn
    the name to upper case, and its property 5 has the error level read
    ERROR. *)
Definition Level_String (level : Level) : string :=
  if level =? TraceLevel then "trace"
  else if level =? DebugLevel then "debug"
  else if level =? InfoLevel then "info"
  else if level =? WarnLevel then "warning"
  else if level =? ErrorLevel then "error"
  else if level =? FatalLevel then "fatal"
  else if level =? PanicLevel then "panic"
  else "unknown".

(** [type Fields map[string]interface{}] *)
Abbreviation Fields := (gmap string any).

(** The fields of [Entry] that a formatter reads. *)
Record Entry : Type := Build_Entry {
  Data : Fields;
  Time : time.Time;
  Entry_Level : Level;
  Message : string
}.

(** The fields of [TextFormatter] that [init] sets; the others keep their
    zero value. *)
Record TextFormatter : Type := Build_TextFormatter {
  FullTimestamp : bool;
  TimestampFormat : string;
  DisableLevelTruncation : bool;
  DisableColors : bool
}.

(** The interface [Formatter]: one method, [Format], from an entry to its
    bytes and an error. *)
Definition Formatter : Type := Entry -> string * option error.

(** Where a logger writes. *)
Inductive Writer : Type := log_Writer | os_Stderr.

Record Logger : Type := Build_Logger {
  Out : Writer;
  Logger_Level : Level;
  Logger_Formatter : Formatter
}.

(** The methods of [*Entry] that [LogPrintf] calls. *)
Inductive Method : Type := Debug | Info | Warn | Error | Fatal | Panic.

Definition Method_Level (m : Method) : Level :=
  match m with
  | Debug => DebugLevel
  | Info => InfoLevel
  | Warn => WarnLevel
  | Error => ErrorLevel
  | Fatal => FatalLevel
  | Panic => PanicLevel
  end.

End logrus.

(** [strings.ToUpper] on ASCII letters, which is all a level name holds. *)
Definition ToUpper_ascii (c : ascii) : ascii :=
  let n := N_of_ascii c in
  if (97 <=? n) && (n <=? 122) then ascii_of_N (n - 32) else c.

Fixpoint strings_ToUpper (s : string) : string :=
  match s with
  | "" => ""
  | String c rest => String (ToUpper_ascii c) (strings_ToUpper rest)
  end.

(** ** The text formatter *)

(** [type MyJSONFormatter struct { logrus.TextFormatter }] *)
Record MyJSONFormatter : Type := Build_MyJSONFormatter {
  TextFormatter : logrus.TextFormatter
}.

(** The [switch] of [Format] on [entry.Level]. *)
Definition levelColor (level : logrus.Level) : N :=
  if (level =? logrus.DebugLevel) || (level =? logrus.TraceLevel) then 34
  else if level =? logrus.WarnLevel then 33
  else if (level =? logrus.ErrorLevel) || (level =? logrus.FatalLevel)
          || (level =? logrus.PanicLevel) then 31
  else 36.

(** The escape character, [\x1b]. *)
Definition ESC : string := String (ascii_of_N 27) "".

(** The line feed, [\n]. *)
Definition LF : string := String (ascii_of_N 10) "".

(** The method [Format] of [MyJSONFormatter]; the error it returns is always
    [nil]. *)
Definition MyJSONFormatter_Format (f : MyJSONFormatter) (entry : logrus.Entry)
  : string * option error :=
  let timestamp :=
    time.Format (logrus.Time entry)
                (logrus.TimestampFormat (TextFormatter f)) in
  let name := strings_ToUpper (logrus.Level_String (logrus.Entry_Level entry)) in
  if logrus.DisableColors (TextFormatter f)
  then
    (* "%s %-6s : %s\n" *)
    (timestamp +:+ " " +:+ fmt_pad_right 6 name +:+ " : " +:+
     logrus.Message entry +:+ LF, None)
  else
    (* "%s \x1b[%dm%-6s\x1b[0m : %s\n" *)
    (timestamp +:+ " " +:+ ESC +:+ "[" +:+
     fmt_d (levelColor (logrus.Entry_Level entry)) +:+ "m" +:+
     fmt_pad_right 6 name +:+ ESC +:+ "[0m" +:+ " : " +:+
     logrus.Message entry +:+ LF, None).

(** ** What the file asks of its collaborators *)

(** A call that leaves this file: a method of the entry that
    [logger.WithFields(fields)] returns, or [log.Output]. *)
Inductive call : Type :=
| Entry_call (fields : logrus.Fields) (m : logrus.Method) (out : string)
| log_Output (calldepth : Z) (s : string).

(** What the process is seen to do: bytes written, a line handed to the
    standard logger, [os.Exit], and a [panic], here with the message of the
    entry that is raised. *)
Inductive event : Type :=
| Write (w : logrus.Writer) (p : string)
| std_Output (calldepth : Z) (s : string)
| os_Exit (code : Z)
| panic (v : string).

Section Log.

(** [fmt.Sprintf] on the caller's template and arguments. *)
Variable Sprintf : string -> list any -> string.

(** The method [Format] of [logrus.JSONFormatter]: the bytes of an entry, or
    the error of a field that cannot be encoded. *)
Variable JSONFormatter_Format : logrus.Formatter.

(** [func init()]: the logger built from the configuration. *)
Definition init (Config : ConfigInfo) : logrus.Logger :=
  if Config_UseJSONLog Config
  then
    {| logrus.Out := logrus.log_Writer;
       logrus.Logger_Level := logrus.DebugLevel;
       logrus.Logger_Formatter := JSONFormatter_Format |}
  else
    {| logrus.Out := logrus.log_Writer;
       logrus.Logger_Level := logrus.DebugLevel;
       logrus.Logger_Formatter :=
         MyJSONFormatter_Format
           {| TextFormatter :=
                {| logrus.FullTimestamp := true;
                   logrus.TimestampFormat := "2006-01-02 15:04:05";
                   logrus.DisableLevelTruncation := true;
                   logrus.DisableColors := negb (Config_EnableLogColors Config)
                |} |} |}.

(** [%s] of a [LogLevel], which is a [Stringer]; were [String] to panic,
    [fmt] would print the panic in place of the name. *)
Definition fmt_s_LogLevel (level : LogLevel) : string :=
  match LogLevel_String level with
  | Some name => name
  | None => "%!s(PANIC=String method: runtime error: index out of range)"
  end.

(** [var LogPrint = func(level LogLevel, text string)], at the value the
    file gives it. *)
Definition LogPrint (level : LogLevel) (text : string) : list call :=
  (* "%-6s: %s" *)
  let text := fmt_pad_right 6 (fmt_s_LogLevel level) +:+ ": " +:+ text in
  [log_Output 4 text].

(** The loop of [LogPrintf] over [args]: [fields[item.key] = item.value]
    for each argument that is a [LogValueItem]. *)
Fixpoint add_items (fields : logrus.Fields) (args : list any) : logrus.Fields :=
  match args with
  | [] => fields
  | an_item item :: rest => add_items (<[key item := value item]> fields) rest
  | _ :: rest => add_items fields rest
  end.

(** The [switch] of [LogPrintf] on [level]; no case matches a level
    above [LogLevelDebug]. *)
Definition level_method (level : LogLevel) : option logrus.Method :=
  if level =? LogLevelDebug then Some logrus.Debug
  else if level =? LogLevelInfo then Some logrus.Info
  else if (level =? LogLevelNotice) || (level =? LogLevelWarning)
    then Some logrus.Warn
  else if level =? LogLevelError then Some logrus.Error
  else if level =? LogLevelCritical then Some logrus.Fatal
  else if (level =? LogLevelEmergency) || (level =? LogLevelAlert)
    then Some logrus.Panic
  else None.

(** [func LogPrintf(level LogLevel, o interface{}, text string, args ...interface{})],
    under the configuration [Config] and the package variable [logger]
    ([None] is [nil]). *)
Definition LogPrintf (Config : ConfigInfo) (logger : option logrus.Logger)
    (level : LogLevel) (o : any) (text : string) (args : list any)
  : list call :=
  let out := Sprintf text args in
  match logger with
  | Some _ =>
      let fields : logrus.Fields :=
        if negb (is_nil o)
        then <["objectType" := a_string (fmt_T o)]>
               (<["object" := a_string (fmt_plus_v o)]> ∅)
        else ∅ in
      let fields := add_items fields args in
      let out :=
        if negb (Config_UseJSONLog Config)
        then fmt_v o +:+ ": " +:+ out   (* "%v: %s" *)
        else out in
      match level_method level with
      | Some m => [Entry_call fields m out]
      | None => []
      end
  | None =>
      (* fallback if logrus is null *)
      let out :=
        if negb (is_nil o)
        then fmt_v o +:+ ": " +:+ out   (* "%v: %s" *)
        else out in
      LogPrint level out
  end.

(** [func LogLevelPrintf]: [Config.LogLevel >= level]. *)
Definition LogLevelPrintf (Config : ConfigInfo) (logger : option logrus.Logger)
    (level : LogLevel) (o : any) (text : string) (args : list any)
  : list call :=
  if level <=? Config_LogLevel Config
  then LogPrintf Config logger level o text args
  else [].

(** [func Errorf] *)
Definition Errorf (Config : ConfigInfo) (logger : option logrus.Logger)
    (o : any) (text : string) (args : list any) : list call :=
  if LogLevelError <=? Config_LogLevel Config
  then LogPrintf Config logger LogLevelError o text args
  else [].

(** [func Logf] *)
Definition Logf (Config : ConfigInfo) (logger : option logrus.Logger)
    (o : any) (text : string) (args : list any) : list call :=
  if LogLevelNotice <=? Config_LogLevel Config
  then LogPrintf Config logger LogLevelNotice o text args
  else [].

(** [func Infof] *)
Definition Infof (Config : ConfigInfo) (logger : option logrus.Logger)
    (o : any) (text : string) (args : list any) : list call :=
  if LogLevelInfo <=? Config_LogLevel Config
  then LogPrintf Config logger LogLevelInfo o text args
  else [].

(** [func Debugf] *)
Definition Debugf (Config : ConfigInfo) (logger : option logrus.Logger)
    (o : any) (text : string) (args : list any) : list call :=
  if LogLevelDebug <=? Config_LogLevel Config
  then LogPrintf Config logger LogLevelDebug o text args
  else [].

(** [func LogDirName(f Fs, dir string) interface{}] *)
Definition LogDirName (f : any) (dir : string) : any :=
  if negb (dir =? "")%string then a_string dir else f.

End Log.

(** ** The collaborators *)

(** Modelled from the spec: the methods of logrus's entries are not under
    src/.  Section 4.4 of the spec has the backend log a record under the
    formatter and destination of the logger, terminate the process after
    logging a fatal record, and raise after logging a panic record; the
    logger holds a minimum severity below which it writes nothing, and a
    formatter that fails is reported on the standard error stream. *)
Definition Entry_log (logger : logrus.Logger) (entry : logrus.Entry) : list event :=
  if logrus.Entry_Level entry <=? logrus.Logger_Level logger
  then
    match logrus.Logger_Formatter logger entry with
    | (serialized, None) => [Write (logrus.Out logger) serialized]
    | (_, Some _) => [Write logrus.os_Stderr "Failed to obtain reader"]
    end
  else [].

Definition Entry_do (logger : logrus.Logger) (now : time.Time)
    (fields : logrus.Fields) (m : logrus.Method) (out : string) : list event :=
  let entry :=
    {| logrus.Data := fields; logrus.Time := now;
       logrus.Entry_Level := logrus.Method_Level m; logrus.Message := out |} in
  match m with
  | logrus.Fatal => Entry_log logger entry ++ [os_Exit 1]
  | logrus.Panic => Entry_log logger entry ++ [panic out]
  | _ => Entry_log logger entry
  end.

(** One call, run at the instant [now]: [log.Output] hands its line to the
    standard logger and its error is dropped by the caller; a method of an
    entry runs on the logger. *)
Definition exec (logger : option logrus.Logger) (now : time.Time) (c : call)
  : list event :=
  match c with
  | log_Output calldepth s => [std_Output calldepth s]
  | Entry_call fields m out =>
      match logger with
      | Some l => Entry_do l now fields m out
      | None => [panic "invalid memory address or nil pointer dereference"]
      end
  end.

(** After [os.Exit] or an uncaught [panic] nothing more runs. *)
Definition stops (e : event) : bool :=
  match e with
  | os_Exit _ | panic _ => true
  | _ => false
  end.

Fixpoint run (logger : option logrus.Logger) (now : time.Time)
    (calls : list call) : list event :=
  match calls with
  | [] => []
  | c :: rest =>
      let es := exec logger now c in
      if existsb stops es then es else es ++ run logger now rest
  end.

(** ** Reading results *)

(** The argument [a] is an annotation under the key [k]. *)
Definition annotates (k : string) (a : any) : bool :=
  match a with
  | an_item item => bool_decide (key item = k)
  | _ => false
  end.

(** The fields that [LogPrintf] starts from: those of the subject. *)
Definition subject_fields (o : any) : logrus.Fields :=
  if negb (is_nil o)
  then <["objectType" := a_string (fmt_T o)]>
         (<["object" := a_string (fmt_plus_v o)]> ∅)
  else ∅.

(** The shape [dddd-dd-dd dd:dd:dd] of a timestamp. *)
Definition is_digit (c : ascii) : bool :=
  let n := N_of_ascii c in (48 <=? n) && (n <=? 57).

Fixpoint matches (pattern s : string) : bool :=
  match pattern, s with
  | "", "" => true
  | String p pattern', String c s' =>
      (if Ascii.eqb p "d" then is_digit c else Ascii.eqb p c)
      && matches pattern' s'
  | _, _ => false
  end.

Definition is_timestamp (s : string) : bool := matches "dddd-dd-dd dd:dd:dd" s.

(** The string holds the escape character. *)
Fixpoint has_ESC (s : string) : bool :=
  match s with
  | "" => false
  | String c rest => Ascii.eqb c (ascii_of_N 27) || has_ESC rest
  end.

(** ** Sample data *)

Module sample.

(** 4 March 2021, 05:06:07. *)
Definition instant : time.Time :=
  {| time.Year := 2021; time.Month := 3; time.Day := 4;
     time.Hour := 5; time.Minute := 6; time.Second := 7 |}.

(** The threshold at Notice, text output, with and without colors. *)
Definition plain : ConfigInfo :=
  {| Config_LogLevel := LogLevelNotice;
     Config_UseJSONLog := false; Config_EnableLogColors := false |}.

Definition colored : ConfigInfo :=
  {| Config_LogLevel := LogLevelNotice;
     Config_UseJSONLog := false; Config_EnableLogColors := true |}.

Definition json : ConfigInfo :=
  {| Config_LogLevel := LogLevelNotice;
     Config_UseJSONLog := true; Config_EnableLogColors := false |}.

Definition disk_full : logrus.Entry :=
  {| logrus.Data := ∅; logrus.Time := instant;
     logrus.Entry_Level := logrus.ErrorLevel; logrus.Message := "disk full" |}.

(** A [Sprintf] that returns its template, for calls without verbs, and a
    JSON formatter that prints the message alone. *)
Definition Sprintf (text : string) (args : list any) : string := text.

Definition JSON : logrus.Formatter :=
  fun entry => (logrus.Message entry, None).


(** A remote named [remote:], as a subject. *)
Definition remote : any :=
  a_value {| shown_v := "remote:"; shown_plus_v := "remote:";
             shown_T := "*local.Fs" |}.

End sample.

(** * Properties *)

(** ** Severity levels *)

Lemma logLevelToString_NoDup : NoDup logLevelToString.
Proof. apply (bool_decide_unpack _). vm_compute. exact I. Qed.

Lemma logLevelToString_nonempty_names : "" ∉ logLevelToString.
Proof. apply (bool_decide_unpack _). vm_compute. exact I. Qed.

Lemma Set_loop_None names n s :
  Set_loop names n s = None <-> s = "" \/ s ∉ names.
Proof.
  revert n. induction names as [|name rest IH]; intros n; simpl.
  - split; [intros _; right; apply not_elem_of_nil | done].
  - destruct (String.eqb_spec s "") as [->|Hs]; simpl.
    + rewrite IH. split; intros _; by left.
    + destruct (String.eqb_spec name s) as [->|Hn].
      * split; [done | intros [?|Hin]; [done | exfalso; apply Hin; left]].
      * rewrite IH, not_elem_of_cons.
        split; [intros [?|?]; [by left | right; split; [congruence | done]]
               | intros [?|[_ ?]]; [by left | by right]].
Qed.

Lemma Set_loop_first names n s (i : nat) :
  NoDup names -> names !! i = Some s -> s <> "" ->
  Set_loop names n s = Some (n + Z.of_nat i)%Z.
Proof.
  revert n i. induction names as [|name rest IH]; intros n i Hnd Hi Hs; [done|].
  simpl. destruct (String.eqb_spec s "") as [|_]; [done|]. simpl.
  apply NoDup_cons in Hnd as [Hnotin Hnd].
  destruct i as [|i]; simpl in Hi.
  - injection Hi as ->. rewrite String.eqb_refl. f_equal. lia.
  - destruct (String.eqb_spec name s) as [->|_].
    + exfalso. apply Hnotin. eapply list_elem_of_lookup_2. exact Hi.
    + rewrite (IH (n + 1)%Z i Hnd Hi Hs). f_equal. lia.
Qed.

Lemma Set_loop_Some names n s k :
  Set_loop names n s = Some k ->
  s <> "" /\ exists i : nat, names !! i = Some s /\ k = (n + Z.of_nat i)%Z.
Proof.
  revert n. induction names as [|name rest IH]; intros n; simpl; [done|].
  destruct (String.eqb_spec s "") as [->|Hs]; simpl.
  - intros H. apply IH in H as [? _]. done.
  - destruct (String.eqb_spec name s) as [->|Hn].
    + intros [= <-]. split; [done|]. exists 0%nat. split; [done | lia].
    + intros H. apply IH in H as [_ (i & Hi & ->)]. split; [done|].
      exists (S i). split; [done | lia].
Qed.

(** An index into the table is a byte, and converts to itself. *)
Lemma byte_of_index (i : nat) (s : string) :
  logLevelToString !! i = Some s -> byte_of_int (Z.of_nat i) = N.of_nat i.
Proof.
  intros Hi. apply lookup_lt_Some in Hi. simpl in Hi.
  unfold byte_of_int. rewrite Z.mod_small by lia. lia.
Qed.

(** [Set] succeeds with the level [L] exactly on the name at index [L]. *)
Lemma LogLevel_Set_ok l s L :
  LogLevel_Set l s = (L, None) <-> index logLevelToString L = Some s.
Proof.
  unfold LogLevel_Set, index. split.
  - destruct (Set_loop _ _ _) as [k|] eqn:E; [|done].
    apply Set_loop_Some in E as [_ (i & Hi & ->)]. intros [= <-].
    rewrite Z.add_0_l, (byte_of_index i s Hi), Nat2N.id. exact Hi.
  - intros Hi.
    assert (s <> "") as Hs.
    { intros ->. apply logLevelToString_nonempty_names.
      eapply list_elem_of_lookup_2. exact Hi. }
    rewrite (Set_loop_first _ 0%Z s _ logLevelToString_NoDup Hi Hs).
    rewrite Z.add_0_l, (byte_of_index _ s Hi), N2Nat.id. done.
Qed.

(** [Set] fails exactly off the table, and then keeps the receiver. *)
Lemma LogLevel_Set_fail l s :
  s ∉ logLevelToString ->
  LogLevel_Set l s = (l, Some (errors_Errorf "Unknown log level %q" s)).
Proof.
  intros Hs. unfold LogLevel_Set.
  assert (Set_loop logLevelToString 0%Z s = None) as ->; [|done].
  apply Set_loop_None. by right.
Qed.

Lemma LogLevel_String_in_range l :
  l < 8 -> LogLevel_String l = index logLevelToString l.
Proof.
  intros Hl. unfold LogLevel_String.
  destruct (N.leb_spec (len logLevelToString) l) as [H|_]; [|done].
  unfold len in H. simpl in H. lia.
Qed.

Lemma LogLevel_String_out_of_range l :
  8 <= l -> LogLevel_String l = Some ("LogLevel(" +:+ fmt_d l +:+ ")").
Proof.
  intros Hl. unfold LogLevel_String.
  destruct (N.leb_spec (len logLevelToString) l) as [_|H]; [done|].
  unfold len in H. simpl in H. lia.
Qed.

Lemma LogLevel_String_is_Some l : is_Some (LogLevel_String l).
Proof.
  destruct (N.lt_ge_cases l 8) as [Hl|Hl].
  - rewrite (LogLevel_String_in_range l Hl). apply lookup_lt_is_Some.
    simpl. lia.
  - rewrite (LogLevel_String_out_of_range l Hl). by eexists.
Qed.

Lemma atoi_fmt_d n : atoi (fmt_d n) = Some n.
Proof.
  unfold atoi, fmt_d. rewrite NilEmpty.usu. simpl.
  by rewrite DecimalN.Unsigned.of_to.
Qed.

(** C2: for every defined level L, [Set] on the name that [String] gives L
    succeeds with L; [Set] on the empty string fails with the unknown-level
    error; and [Set] succeeds with L on exactly the string that equals the
    canonical name of L, so a name in another case (["debug"]) fails. *)
Theorem LogLevel_Set_String_round_trip :
  (forall L l : LogLevel, L < 8 ->
     exists name, LogLevel_String L = Some name /\
                  LogLevel_Set l name = (L, None)) /\
  (forall l : LogLevel,
     LogLevel_Set l "" = (l, Some (errors_Errorf "Unknown log level %q" ""))) /\
  (forall (l L : LogLevel) (s : string),
     LogLevel_Set l s = (L, None) <-> index logLevelToString L = Some s) /\
  (forall (l : LogLevel) (s : string),
     snd (LogLevel_Set l s) = None <-> s ∈ logLevelToString) /\
  (forall l : LogLevel,
     LogLevel_Set l "debug" =
       (l, Some (errors_Errorf "Unknown log level %q" "debug"))).
Proof.
  split; [|split; [|split; [|split]]].
  - intros L l HL. rewrite (LogLevel_String_in_range L HL).
    destruct (index logLevelToString L) as [name|] eqn:E.
    + exists name. split; [done|]. by apply LogLevel_Set_ok.
    + apply lookup_ge_None in E. simpl in E. lia.
  - intros l. apply LogLevel_Set_fail, logLevelToString_nonempty_names.
  - intros l L s. apply LogLevel_Set_ok.
  - intros l s. split.
    + intros H. destruct (LogLevel_Set l s) as [L [e|]] eqn:E; [done|].
      apply LogLevel_Set_ok in E. eapply list_elem_of_lookup_2. exact E.
    + intros Hin. apply list_elem_of_lookup_1 in Hin as [i Hi].
      assert (LogLevel_Set l s = (N.of_nat i, None)) as ->; [|done].
      apply LogLevel_Set_ok. unfold index. by rewrite Nat2N.id.
  - intros l. apply LogLevel_Set_fail.
    apply (bool_decide_unpack _). vm_compute. exact I.
Qed.

Lemma LogLevel_Set_String_round_trip_witness :
  exists name, LogLevel_String LogLevelError = Some name /\
               LogLevel_Set LogLevelDebug name = (LogLevelError, None).
Proof.
  apply (proj1 LogLevel_Set_String_round_trip LogLevelError LogLevelDebug).
  reflexivity.
Defined.

(** C3: [String] never fails; on a value outside 0..7 it returns the
    placeholder [LogLevel(n)] whose digits read back as the value; on a value
    inside it returns the entry of the table of names, which lists
    EMERGENCY..DEBUG in the order of the levels. *)
Theorem LogLevel_String_never_fails (l : LogLevel) :
  is_Some (LogLevel_String l) /\
  (8 <= l ->
     LogLevel_String l = Some ("LogLevel(" +:+ fmt_d l +:+ ")") /\
     atoi (fmt_d l) = Some l) /\
  (l < 8 -> LogLevel_String l = index logLevelToString l) /\
  LogLevel_String <$>
    [ LogLevelEmergency; LogLevelAlert; LogLevelCritical; LogLevelError;
      LogLevelWarning; LogLevelNotice; LogLevelInfo; LogLevelDebug ] =
  Some <$> [ "EMERGENCY"; "ALERT"; "CRITICAL"; "ERROR";
             "WARNING"; "NOTICE"; "INFO"; "DEBUG" ].
Proof.
  split; [|split; [|split]].
  - apply LogLevel_String_is_Some.
  - intros Hl. split;
      [exact (LogLevel_String_out_of_range l Hl) | apply atoi_fmt_d].
  - apply LogLevel_String_in_range.
  - reflexivity.
Qed.

Lemma LogLevel_String_never_fails_witness :
  (LogLevel_String 200 = Some "LogLevel(200)" /\ atoi "200" = Some 200) /\
  LogLevel_String LogLevelNotice = Some "NOTICE".
Proof.
  split.
  - apply (proj1 (proj2 (LogLevel_String_never_fails 200))). discriminate.
  - apply (proj1 (proj2 (proj2 (LogLevel_String_never_fails LogLevelNotice)))).
    reflexivity.
Defined.

(** C10: [Set] on a string that matches no canonical name, the empty string
    among them, returns an error and leaves the receiver as it was; on a
    canonical name it sets the receiver to the level of that name and
    returns nil. *)
Theorem LogLevel_Set_atomic (l : LogLevel) (s : string) :
  (s ∉ logLevelToString ->
     LogLevel_Set l s = (l, Some (errors_Errorf "Unknown log level %q" s))) /\
  ("" ∉ logLevelToString) /\
  (forall L : LogLevel,
     index logLevelToString L = Some s -> LogLevel_Set l s = (L, None)).
Proof.
  split; [apply LogLevel_Set_fail | split].
  - apply logLevelToString_nonempty_names.
  - intros L HL. by apply LogLevel_Set_ok.
Qed.

Lemma LogLevel_Set_atomic_witness :
  LogLevel_Set LogLevelInfo "verbose" =
    (LogLevelInfo, Some (errors_Errorf "Unknown log level %q" "verbose")) /\
  LogLevel_Set LogLevelInfo "ALERT" = (LogLevelAlert, None).
Proof.
  split.
  - apply (proj1 (LogLevel_Set_atomic LogLevelInfo "verbose")).
    apply (bool_decide_unpack _). vm_compute. exact I.
  - apply (proj2 (proj2 (LogLevel_Set_atomic LogLevelInfo "ALERT"))).
    reflexivity.
Defined.

(** ** The text formatter *)

Lemma matches_app p1 p2 s1 s2 :
  matches p1 s1 = true -> matches p2 s2 = true ->
  matches (p1 +:+ p2) (s1 +:+ s2) = true.
Proof.
  revert s1. induction p1 as [|p p1 IH]; intros [|c s1]; simpl; try done.
  intros H1 H2. apply andb_true_iff in H1 as [Hc H1].
  rewrite Hc. simpl. by apply IH.
Qed.

(** A number below 10^4 prints as four digits under width 4, and a number
    below 10^2 as two digits under width 2; both by running [appendInt] over
    the range. *)
Lemma appendInt_4_digits (x : Z) :
  (0 <= x <= 9999)%Z -> matches "dddd" (time.appendInt x 4) = true.
Proof.
  intros Hx.
  assert (forallb (fun n => matches "dddd" (time.appendInt (Z.of_nat n) 4))
                  (seq 0 (Z.to_nat 10000)) = true) as Hall
    by (vm_compute; reflexivity).
  rewrite forallb_forall in Hall.
  rewrite <- (Z2Nat.id x) by lia. apply Hall, in_seq. lia.
Qed.

Lemma appendInt_2_digits (x : N) :
  x < 100 -> matches "dd" (time.appendInt (Z.of_N x) 2) = true.
Proof.
  intros Hx.
  assert (forallb (fun n => matches "dd" (time.appendInt (Z.of_nat n) 2))
                  (seq 0 100) = true) as Hall by (vm_compute; reflexivity).
  rewrite forallb_forall in Hall.
  rewrite <- (N2Nat.id x), nat_N_Z. apply Hall, in_seq. lia.
Qed.

(** The layout that [init] sets lies in the part of the layout language that
    [time.Format] interprets, and prints a calendar date and clock in the
    shape of [is_timestamp]. *)
Lemma TimestampFormat_interpreted :
  time.interpreted "2006-01-02 15:04:05" = true.
Proof. reflexivity. Qed.

Lemma Format_is_timestamp (t : time.Time) :
  time.civil t -> is_timestamp (time.Format t "2006-01-02 15:04:05") = true.
Proof.
  intros (Hy & Hm & Hd & Hh & Hmi & Hs).
  unfold is_timestamp.
  change "dddd-dd-dd dd:dd:dd"
    with ("dddd" +:+ "-" +:+ "dd" +:+ "-" +:+ "dd" +:+ " " +:+
          "dd" +:+ ":" +:+ "dd" +:+ ":" +:+ "dd" +:+ "").
  change (time.Format t "2006-01-02 15:04:05")
    with (time.appendInt (time.Year t) 4 +:+ "-" +:+
          time.appendInt (Z.of_N (time.Month t)) 2 +:+ "-" +:+
          time.appendInt (Z.of_N (time.Day t)) 2 +:+ " " +:+
          time.appendInt (Z.of_N (time.Hour t)) 2 +:+ ":" +:+
          time.appendInt (Z.of_N (time.Minute t)) 2 +:+ ":" +:+
          time.appendInt (Z.of_N (time.Second t)) 2 +:+ "").
  repeat (apply matches_app;
          [first [ by apply appendInt_4_digits
                 | apply appendInt_2_digits; lia
                 | reflexivity ] |]).
  reflexivity.
Qed.

(** The formatter of the logger that [init] builds without JSON. *)
Lemma init_text_Formatter JSON Config :
  Config_UseJSONLog Config = false ->
  logrus.Logger_Formatter (init JSON Config) =
  MyJSONFormatter_Format
    {| TextFormatter :=
         {| logrus.FullTimestamp := true;
            logrus.TimestampFormat := "2006-01-02 15:04:05";
            logrus.DisableLevelTruncation := true;
            logrus.DisableColors := negb (Config_EnableLogColors Config) |} |}.
Proof. intros H. unfold init. by rewrite H. Qed.

(** C5, as the code has it: without JSON and without colors, the formatter of
    the logger renders an entry as its time under the layout
    [2006-01-02 15:04:05], a space, the name of its level in upper case
    filled to width 6, [" : "], the message and a line feed, with no error;
    for a calendar date with a year of four digits the time has the shape
    YYYY-MM-DD HH:MM:SS; and the error level with the message [disk full]
    gives [<timestamp> ERROR  : disk full] and a line feed. *)
Theorem Format_without_colors
    (JSON : logrus.Formatter) (Config : ConfigInfo) (entry : logrus.Entry) :
  Config_UseJSONLog Config = false ->
  Config_EnableLogColors Config = false ->
  let timestamp := time.Format (logrus.Time entry) "2006-01-02 15:04:05" in
  let name := strings_ToUpper (logrus.Level_String (logrus.Entry_Level entry)) in
  logrus.Logger_Formatter (init JSON Config) entry =
    (timestamp +:+ " " +:+ fmt_pad_right 6 name +:+ " : " +:+
     logrus.Message entry +:+ LF, None) /\
  (time.civil (logrus.Time entry) -> is_timestamp timestamp = true) /\
  (logrus.Entry_Level entry = logrus.ErrorLevel ->
   logrus.Message entry = "disk full" ->
   logrus.Logger_Formatter (init JSON Config) entry =
     (timestamp +:+ " ERROR  : disk full" +:+ LF, None)).
Proof.
  intros Hjson Hcolors timestamp name.
  assert (logrus.Logger_Formatter (init JSON Config) entry =
          (timestamp +:+ " " +:+ fmt_pad_right 6 name +:+ " : " +:+
           logrus.Message entry +:+ LF, None)) as Hfmt.
  { rewrite (init_text_Formatter JSON Config Hjson).
    unfold MyJSONFormatter_Format. simpl. by rewrite Hcolors. }
  split; [exact Hfmt | split].
  - apply Format_is_timestamp.
  - intros Hlevel Hmsg. rewrite Hfmt. subst name. by rewrite Hlevel, Hmsg.
Qed.

Lemma Format_without_colors_witness :
  logrus.Logger_Formatter (init sample.JSON sample.plain) sample.disk_full =
    ("2021-03-04 05:06:07 ERROR  : disk full" +:+ LF, None) /\
  is_timestamp "2021-03-04 05:06:07" = true.
Proof.
  destruct (Format_without_colors sample.JSON sample.plain sample.disk_full
              eq_refl eq_refl) as (_ & Hshape & Hline).
  split.
  - apply Hline; reflexivity.
  - apply Hshape. unfold time.civil. simpl. lia.
Defined.

(** C5, as the spec words it, fails: the bytes that the formatter returns for
    the error level and the message [disk full] are not the timestamp, a
    space, the name filled to width 6, [" : "] and the message exactly; a
    line feed follows the message. *)
Lemma Format_without_colors_line_feed :
  let timestamp := time.Format sample.instant "2006-01-02 15:04:05" in
  let out :=
    fst (logrus.Logger_Formatter (init sample.JSON sample.plain) sample.disk_full) in
  out <> timestamp +:+ " " +:+ fmt_pad_right 6 "ERROR" +:+ " : " +:+ "disk full"
  /\ out <> "2021-03-04 05:06:07 ERROR  : disk full"
  /\ out = "2021-03-04 05:06:07 ERROR  : disk full" +:+ LF.
Proof. vm_compute. repeat split; discriminate. Qed.

(** C6: without JSON and with colors, the formatter wraps the name of the
    level in the escape [ESC[<code>m] and [ESC[0m], and the code depends on
    the level alone: 34 for debug and trace, 33 for warning, 31 for error and
    the more severe fatal and panic, and 36 for every other level. *)
Theorem Format_with_colors
    (JSON : logrus.Formatter) (Config : ConfigInfo) (entry : logrus.Entry) :
  Config_UseJSONLog Config = false ->
  Config_EnableLogColors Config = true ->
  let timestamp := time.Format (logrus.Time entry) "2006-01-02 15:04:05" in
  let name := strings_ToUpper (logrus.Level_String (logrus.Entry_Level entry)) in
  let level := logrus.Entry_Level entry in
  logrus.Logger_Formatter (init JSON Config) entry =
    (timestamp +:+ " " +:+
     ESC +:+ "[" +:+ fmt_d (levelColor level) +:+ "m" +:+
     fmt_pad_right 6 name +:+ ESC +:+ "[0m" +:+
     " : " +:+ logrus.Message entry +:+ LF, None) /\
  (level = logrus.DebugLevel \/ level = logrus.TraceLevel ->
   levelColor level = 34) /\
  (level = logrus.WarnLevel -> levelColor level = 33) /\
  (level <= logrus.ErrorLevel -> levelColor level = 31) /\
  (level = logrus.InfoLevel \/ logrus.TraceLevel < level ->
   levelColor level = 36).
Proof.
  intros Hjson Hcolors timestamp name level.
  split.
  { rewrite (init_text_Formatter JSON Config Hjson).
    unfold MyJSONFormatter_Format. simpl. by rewrite Hcolors. }
  unfold levelColor, logrus.DebugLevel, logrus.TraceLevel, logrus.WarnLevel,
    logrus.ErrorLevel, logrus.FatalLevel, logrus.PanicLevel, logrus.InfoLevel.
  clearbody level.
  repeat split; intros H;
    repeat match goal with
           | |- context [(?a =? ?b)] => destruct (N.eqb_spec a b); simpl
           end; lia.
Qed.

Lemma Format_with_colors_witness :
  logrus.Logger_Formatter (init sample.JSON sample.colored) sample.disk_full =
    ("2021-03-04 05:06:07 " +:+ ESC +:+ "[31mERROR " +:+ ESC +:+
     "[0m : disk full" +:+ LF, None) /\
  levelColor logrus.DebugLevel = 34 /\
  levelColor logrus.WarnLevel = 33 /\
  levelColor logrus.FatalLevel = 31 /\
  levelColor logrus.InfoLevel = 36.
Proof.
  destruct (Format_with_colors sample.JSON sample.colored sample.disk_full
              eq_refl eq_refl) as (Hline & _).
  split; [exact Hline|].
  pose proof (fun e => Format_with_colors sample.JSON sample.colored e
                         eq_refl eq_refl) as H.
  split; [|split; [|split]].
  - apply (H {| logrus.Data := ∅; logrus.Time := sample.instant;
                logrus.Entry_Level := logrus.DebugLevel; logrus.Message := "" |}).
    by left.
  - apply (H {| logrus.Data := ∅; logrus.Time := sample.instant;
                logrus.Entry_Level := logrus.WarnLevel; logrus.Message := "" |}).
    reflexivity.
  - apply (H {| logrus.Data := ∅; logrus.Time := sample.instant;
                logrus.Entry_Level := logrus.FatalLevel; logrus.Message := "" |}).
    discriminate.
  - apply (H {| logrus.Data := ∅; logrus.Time := sample.instant;
                logrus.Entry_Level := logrus.InfoLevel; logrus.Message := "" |}).
    by left.
Defined.

(** ** Field annotations *)

Lemma add_items_app fields pre post :
  add_items fields (pre ++ post)%list = add_items (add_items fields pre) post.
Proof.
  revert fields. induction pre as [|a pre IH]; intros fields; [done|].
  destruct a as [| |item|]; simpl; apply IH.
Qed.

(** Arguments that do not annotate under [k] leave the field [k] alone. *)
Lemma add_items_other fields args k :
  forallb (fun a => negb (annotates k a)) args = true ->
  add_items fields args !! k = fields !! k.
Proof.
  revert fields. induction args as [|a args IH]; intros fields H; [done|].
  simpl in H. apply andb_true_iff in H as [Ha H].
  destruct a as [| |item|]; simpl; try by apply IH.
  rewrite (IH _ H). apply lookup_insert_ne.
  simpl in Ha. apply negb_true_iff, bool_decide_eq_false in Ha. exact Ha.
Qed.

(** The last annotation under [k] is the one that the mapping holds. *)
Lemma add_items_last fields pre post k v :
  forallb (fun a => negb (annotates k a)) post = true ->
  add_items fields (pre ++ an_item (LogValue k v) :: post)%list !! k = Some v.
Proof.
  intros H. rewrite add_items_app. simpl.
  rewrite (add_items_other _ post k H). apply lookup_insert_eq.
Qed.

Lemma level_method_defined level :
  level < 8 -> is_Some (level_method level).
Proof.
  intros H. unfold level_method, LogLevelDebug, LogLevelInfo, LogLevelNotice,
    LogLevelWarning, LogLevelError, LogLevelCritical, LogLevelEmergency,
    LogLevelAlert.
  repeat match goal with
         | |- context [(?a =? ?b)] => destruct (N.eqb_spec a b); simpl
         end; try by eexists.
  lia.
Qed.

Lemma level_method_undefined level :
  8 <= level -> level_method level = None.
Proof.
  intros H. unfold level_method, LogLevelDebug, LogLevelInfo, LogLevelNotice,
    LogLevelWarning, LogLevelError, LogLevelCritical, LogLevelEmergency,
    LogLevelAlert.
  repeat match goal with
         | |- context [(?a =? ?b)] => destruct (N.eqb_spec a b); simpl
         end; first [done | lia].
Qed.

(** With a logger, [LogPrintf] makes the one call that its switch selects,
    on the fields of the subject and the annotations, or none. *)
Lemma LogPrintf_logger Sprintf Config logger level o text args :
  LogPrintf Sprintf Config (Some logger) level o text args =
  match level_method level with
  | Some m =>
      [Entry_call (add_items (subject_fields o) args) m
         (if negb (Config_UseJSONLog Config)
          then fmt_v o +:+ ": " +:+ Sprintf text args
          else Sprintf text args)]
  | None => []
  end.
Proof. reflexivity. Qed.

(** Without one, it makes the one call of [LogPrint]. *)
Lemma LogPrintf_fallback Sprintf Config level o text args :
  LogPrintf Sprintf Config None level o text args =
  LogPrint level
    (if negb (is_nil o)
     then fmt_v o +:+ ": " +:+ Sprintf text args
     else Sprintf text args).
Proof. reflexivity. Qed.

(** C7: [LogValue] builds an annotation from any key and value; its [String]
    is empty, and so is what [%v] prints of it; with a logger, the call that
    [LogPrintf] makes at a defined level carries a mapping that holds, for
    every annotation among [args] with no later annotation under the same
    key, the value of that annotation under its key, so the last one wins;
    a key under which nothing annotates keeps the field of the subject. *)
Theorem LogValue_extracted
    (Sprintf : string -> list any -> string) (Config : ConfigInfo)
    (logger : logrus.Logger) (level : LogLevel) (o : any) (text : string)
    (args : list any) :
  (forall (k : string) (v : any),
     key (LogValue k v) = k /\ value (LogValue k v) = v /\
     LogValueItem_String (LogValue k v) = "" /\
     fmt_v (an_item (LogValue k v)) = "") /\
  (level < 8 ->
   exists fields m out,
     LogPrintf Sprintf Config (Some logger) level o text args =
       [Entry_call fields m out] /\
     (forall pre post k v,
        args = (pre ++ an_item (LogValue k v) :: post)%list ->
        forallb (fun a => negb (annotates k a)) post = true ->
        fields !! k = Some v) /\
     (forall k,
        forallb (fun a => negb (annotates k a)) args = true ->
        fields !! k = subject_fields o !! k)).
Proof.
  split; [done|].
  intros Hlevel. rewrite LogPrintf_logger.
  destruct (level_method_defined level Hlevel) as [m ->].
  eexists _, m, _. split; [reflexivity | split].
  - intros pre post k v -> Hpost. by apply add_items_last.
  - intros k Hk. by apply add_items_other.
Qed.

Lemma LogValue_extracted_witness :
  exists fields m out,
    LogPrintf sample.Sprintf sample.json (Some (init sample.JSON sample.json))
      LogLevelInfo sample.remote "copied"
      [ an_item (LogValue "bytes" (a_string "1"));
        a_string "x";
        an_item (LogValue "bytes" (a_string "1024")) ] =
      [Entry_call fields m out] /\
    fields !! "bytes" = Some (a_string "1024") /\
    fields !! "object" = Some (a_string "remote:").
Proof.
  destruct (proj2 (LogValue_extracted sample.Sprintf sample.json
                     (init sample.JSON sample.json) LogLevelInfo sample.remote
                     "copied"
                     [ an_item (LogValue "bytes" (a_string "1"));
                       a_string "x";
                       an_item (LogValue "bytes" (a_string "1024")) ])
                  eq_refl)
    as (fields & m & out & Hcall & Hlast & Hkeep).
  exists fields, m, out. split; [exact Hcall | split].
  - apply (Hlast [an_item (LogValue "bytes" (a_string "1")); a_string "x"] []);
      reflexivity.
  - rewrite (Hkeep "object"); reflexivity.
Defined.

(** ** Emitters *)

Lemma LogPrintf_one_call Sprintf Config logger level o text args :
  level < 8 ->
  exists c, LogPrintf Sprintf Config logger level o text args = [c].
Proof.
  intros Hlevel. destruct logger as [logger|].
  - rewrite LogPrintf_logger.
    destruct (level_method_defined level Hlevel) as [m ->]. by eexists.
  - rewrite LogPrintf_fallback. by eexists.
Qed.

(** C1: at a defined level, [LogLevelPrintf] makes a call exactly when the
    configured threshold is at least the level, and then it is the call of
    [LogPrintf]; [Errorf], [Logf], [Infof] and [Debugf] are [LogLevelPrintf]
    at their levels; so under the threshold Notice [Infof] makes no call,
    and [Logf] and [Errorf] each make one. *)
Theorem LogLevelPrintf_threshold
    (Sprintf : string -> list any -> string) (Config : ConfigInfo)
    (logger : option logrus.Logger) (level : LogLevel) (o : any)
    (text : string) (args : list any) :
  level < 8 ->
  (LogLevelPrintf Sprintf Config logger level o text args <> [] <->
   level <= Config_LogLevel Config) /\
  (level <= Config_LogLevel Config ->
   LogLevelPrintf Sprintf Config logger level o text args =
     LogPrintf Sprintf Config logger level o text args) /\
  (Errorf Sprintf Config logger o text args =
     LogLevelPrintf Sprintf Config logger LogLevelError o text args /\
   Logf Sprintf Config logger o text args =
     LogLevelPrintf Sprintf Config logger LogLevelNotice o text args /\
   Infof Sprintf Config logger o text args =
     LogLevelPrintf Sprintf Config logger LogLevelInfo o text args /\
   Debugf Sprintf Config logger o text args =
     LogLevelPrintf Sprintf Config logger LogLevelDebug o text args) /\
  (Config_LogLevel Config = LogLevelNotice ->
   Infof Sprintf Config logger o text args = [] /\
   (exists c, Logf Sprintf Config logger o text args = [c]) /\
   (exists c, Errorf Sprintf Config logger o text args = [c])).
Proof.
  intros Hlevel. split; [|split; [|split]].
  - unfold LogLevelPrintf.
    destruct (N.leb_spec level (Config_LogLevel Config)) as [Hle|Hgt].
    + split; [done | intros _].
      destruct (LogPrintf_one_call Sprintf Config logger level o text args
                  Hlevel) as [c ->]. done.
    + split; [done | lia].
  - intros Hle. unfold LogLevelPrintf.
    by destruct (N.leb_spec level (Config_LogLevel Config)); [|lia].
  - done.
  - intros Hnotice. unfold Infof, Logf, Errorf. rewrite Hnotice. simpl.
    split; [done | split]; by apply LogPrintf_one_call.
Qed.

Lemma LogLevelPrintf_threshold_witness :
  LogLevelPrintf sample.Sprintf sample.plain None LogLevelInfo
    nil_interface "copied" [] = [] /\
  Infof sample.Sprintf sample.plain None nil_interface "copied" [] = [] /\
  (exists c, Logf sample.Sprintf sample.plain None nil_interface "copied" []
             = [c]) /\
  (exists c, Errorf sample.Sprintf sample.plain None nil_interface "copied" []
             = [c]).
Proof.
  pose proof (LogLevelPrintf_threshold sample.Sprintf sample.plain None
                LogLevelInfo nil_interface "copied" [] eq_refl)
    as (Hiff & _ & _ & Hnotice).
  split; [|exact (Hnotice eq_refl)].
  destruct (LogLevelPrintf sample.Sprintf sample.plain None LogLevelInfo
              nil_interface "copied" []) as [|c calls] eqn:E; [reflexivity|].
  exfalso. assert (LogLevelInfo <= Config_LogLevel sample.plain) as Hle.
  { apply Hiff. discriminate. }
  vm_compute in Hle. apply Hle. reflexivity.
Defined.

(** C9: with a logger and without JSON, the message is prefixed by [%v] of
    the subject and [": "], and a nil subject gives the prefix ["<nil>: "];
    without a logger the prefix is there for a subject that is not nil, and
    a nil subject leaves the message bare. *)
Theorem subject_prefix_asymmetric
    (Sprintf : string -> list any -> string) (Config : ConfigInfo)
    (logger : logrus.Logger) (level : LogLevel) (o : any) (text : string)
    (args : list any) :
  let out := Sprintf text args in
  (Config_UseJSONLog Config = false -> level < 8 ->
   (exists fields m,
      LogPrintf Sprintf Config (Some logger) level o text args =
        [Entry_call fields m (fmt_v o +:+ ": " +:+ out)]) /\
   (exists fields m,
      LogPrintf Sprintf Config (Some logger) level nil_interface text args =
        [Entry_call fields m ("<nil>: " +:+ out)])) /\
  (o <> nil_interface ->
   LogPrintf Sprintf Config None level o text args =
     LogPrint level (fmt_v o +:+ ": " +:+ out)) /\
  LogPrintf Sprintf Config None level nil_interface text args =
    LogPrint level out.
Proof.
  intros out. split; [|split].
  - intros Hjson Hlevel. rewrite !LogPrintf_logger, Hjson.
    destruct (level_method_defined level Hlevel) as [m ->].
    split; by eexists _, m.
  - intros Ho. rewrite LogPrintf_fallback. by destruct o.
  - reflexivity.
Qed.

Lemma subject_prefix_asymmetric_witness :
  (exists fields m,
     LogPrintf sample.Sprintf sample.plain
       (Some (init sample.JSON sample.plain)) LogLevelError nil_interface
       "disk full" [] = [Entry_call fields m "<nil>: disk full"]) /\
  LogPrintf sample.Sprintf sample.plain None LogLevelError sample.remote
    "disk full" [] = [log_Output 4 "ERROR : remote:: disk full"] /\
  LogPrintf sample.Sprintf sample.plain None LogLevelError nil_interface
    "disk full" [] = [log_Output 4 "ERROR : disk full"].
Proof.
  pose proof (subject_prefix_asymmetric sample.Sprintf sample.plain
                (init sample.JSON sample.plain) LogLevelError) as H.
  split; [|split].
  - apply (proj1 (H nil_interface "disk full" []) eq_refl eq_refl).
  - apply (proj1 (proj2 (H sample.remote "disk full" []))). discriminate.
  - apply (proj2 (proj2 (H nil_interface "disk full" []))).
Defined.

(** ** The fallback printer *)

(** C8, as the code has it: without a logger, every call that reaches
    [LogPrintf], at any level and under any configuration, makes the one call
    [log.Output] with the call depth 4 and the line made of the name of the
    level filled with spaces to width 6, [": "] and the message (after the
    subject, when there is one), with no field and no escape code; run, the
    call hands that line to the standard logger and neither exits nor
    panics.  [LogPrint] does not filter, but the filtered emitters do before
    they reach it: [LogLevelPrintf], and [Errorf], [Logf], [Infof] and
    [Debugf] at their levels, make that call when the level is at most the
    threshold and no call above it. *)
Theorem LogPrintf_without_logger
    (Sprintf : string -> list any -> string) (Config : ConfigInfo)
    (level : LogLevel) (o : any) (text : string) (args : list any)
    (now : time.Time) :
  let message :=
    if is_nil o then Sprintf text args
    else fmt_v o +:+ ": " +:+ Sprintf text args in
  exists name,
    LogLevel_String level = Some name /\
    fmt_pad_right 6 name = name +:+ spaces (6 - String.length name)%nat /\
    LogPrint level message =
      [log_Output 4 (fmt_pad_right 6 name +:+ ": " +:+ message)] /\
    LogPrintf Sprintf Config None level o text args =
      [log_Output 4 (fmt_pad_right 6 name +:+ ": " +:+ message)] /\
    run None now (LogPrintf Sprintf Config None level o text args) =
      [std_Output 4 (fmt_pad_right 6 name +:+ ": " +:+ message)] /\
    existsb stops
      (run None now (LogPrintf Sprintf Config None level o text args)) = false /\
    (level <= Config_LogLevel Config ->
     LogLevelPrintf Sprintf Config None level o text args =
       [log_Output 4 (fmt_pad_right 6 name +:+ ": " +:+ message)]) /\
    (Config_LogLevel Config < level ->
     LogLevelPrintf Sprintf Config None level o text args = [] /\
     run None now (LogLevelPrintf Sprintf Config None level o text args) = []) /\
    (Errorf Sprintf Config None o text args =
       LogLevelPrintf Sprintf Config None LogLevelError o text args /\
     Logf Sprintf Config None o text args =
       LogLevelPrintf Sprintf Config None LogLevelNotice o text args /\
     Infof Sprintf Config None o text args =
       LogLevelPrintf Sprintf Config None LogLevelInfo o text args /\
     Debugf Sprintf Config None o text args =
       LogLevelPrintf Sprintf Config None LogLevelDebug o text args).
Proof.
  intros message.
  destruct (LogLevel_String_is_Some level) as [name Hname].
  exists name. split; [exact Hname|]. split; [reflexivity|].
  assert (LogPrint level message =
          [log_Output 4 (fmt_pad_right 6 name +:+ ": " +:+ message)]) as Hprint.
  { unfold LogPrint, fmt_s_LogLevel. by rewrite Hname. }
  assert (LogPrintf Sprintf Config None level o text args =
          LogPrint level message) as Hfallback.
  { rewrite LogPrintf_fallback. subst message. by destruct o. }
  rewrite Hfallback, Hprint.
  split; [done | split; [done | split; [done | split; [done|]]]].
  unfold LogLevelPrintf. split; [|split; [|done]].
  - intros Hle. rewrite Hfallback, Hprint.
    by destruct (N.leb_spec level (Config_LogLevel Config)); [|lia].
  - intros Hgt.
    by destruct (N.leb_spec level (Config_LogLevel Config)); [lia|].
Qed.

Lemma LogPrintf_without_logger_witness :
  LogPrintf sample.Sprintf sample.plain None LogLevelInfo sample.remote
    "copied" [] = [log_Output 4 "INFO  : remote:: copied"] /\
  LogLevelPrintf sample.Sprintf sample.plain None LogLevelError nil_interface
    "disk full" [] = [log_Output 4 "ERROR : disk full"] /\
  LogLevelPrintf sample.Sprintf sample.plain None LogLevelInfo sample.remote
    "copied" [] = [].
Proof.
  split; [|split].
  - destruct (LogPrintf_without_logger sample.Sprintf sample.plain
                LogLevelInfo sample.remote "copied" [] sample.instant)
      as (name & Hname & _ & _ & Hcall & _).
    vm_compute in Hname. injection Hname as <-. exact Hcall.
  - destruct (LogPrintf_without_logger sample.Sprintf sample.plain
                LogLevelError nil_interface "disk full" [] sample.instant)
      as (name & Hname & _ & _ & _ & _ & _ & Hpass & _).
    vm_compute in Hname. injection Hname as <-. apply Hpass. discriminate.
  - destruct (LogPrintf_without_logger sample.Sprintf sample.plain
                LogLevelInfo sample.remote "copied" [] sample.instant)
      as (name & _ & _ & _ & _ & _ & _ & _ & Hdrop & _).
    apply Hdrop. reflexivity.
Defined.

(** C8, as the spec words it, fails: without a logger, the leveled call
    [Infof] under the threshold Notice produces no line, although
    [LogPrintf] at the same level does; the threshold is applied before the
    fallback is reached. *)
Lemma Infof_without_logger_no_line :
  Infof sample.Sprintf sample.plain None sample.remote "copied" [] = [] /\
  run None sample.instant
    (Infof sample.Sprintf sample.plain None sample.remote "copied" []) = [] /\
  run None sample.instant
    (LogPrintf sample.Sprintf sample.plain None LogLevelInfo sample.remote
       "copied" []) = [std_Output 4 "INFO  : remote:: copied"].
Proof. repeat split. Qed.

(** ** Routing to the backend *)

(** The logger of [init] lets every level of [LogPrintf] through.  Its text
    formatter never fails, so an entry is written to the log writer; its JSON
    formatter may fail, and then the failure goes to the standard error
    stream and nothing to the log writer. *)
Lemma Entry_log_init_text JSON Config entry :
  Config_UseJSONLog Config = false ->
  logrus.Entry_Level entry <= logrus.DebugLevel ->
  Entry_log (init JSON Config) entry =
    [Write logrus.log_Writer
       (fst (logrus.Logger_Formatter (init JSON Config) entry))].
Proof.
  intros Hjson Hlevel. unfold Entry_log, init. rewrite Hjson. simpl.
  destruct (N.leb_spec (logrus.Entry_Level entry) logrus.DebugLevel); [|lia].
  unfold MyJSONFormatter_Format. simpl.
  by destruct (negb (Config_EnableLogColors Config)).
Qed.

Lemma Entry_log_init_JSON JSON Config entry :
  Config_UseJSONLog Config = true ->
  logrus.Entry_Level entry <= logrus.DebugLevel ->
  Entry_log (init JSON Config) entry =
    match JSON entry with
    | (serialized, None) => [Write logrus.log_Writer serialized]
    | (_, Some _) => [Write logrus.os_Stderr "Failed to obtain reader"]
    end.
Proof.
  intros Hjson Hlevel. unfold Entry_log, init. rewrite Hjson. simpl.
  by destruct (N.leb_spec (logrus.Entry_Level entry) logrus.DebugLevel); [|lia].
Qed.

Lemma run_one logger now c : run logger now [c] = exec logger now c.
Proof.
  simpl. destruct (existsb stops (exec logger now c)); [done|].
  apply app_nil_r.
Qed.

(** C4: with a logger, [LogPrintf] at a defined level makes one call, of the
    method that the table gives the level: Debug for Debug, Info for Info,
    Warn for Notice and Warning, Error for Error, Fatal for Critical, Panic
    for Emergency and Alert.  Run, the Fatal call logs the entry and then
    exits with status 1, and the Panic call logs the entry and then panics;
    on the logger that [init] builds for text the entry is a write of the
    formatted entry to the log writer, and on the one it builds for JSON it
    is a write of the bytes that the JSON formatter returns for the entry,
    when it returns them without an error. *)
Theorem LogPrintf_routing
    (Sprintf : string -> list any -> string) (JSON : logrus.Formatter)
    (Config : ConfigInfo) (logger : logrus.Logger) (level : LogLevel) (o : any)
    (text : string) (args : list any) (now : time.Time) :
  let calls := LogPrintf Sprintf Config (Some logger) level o text args in
  level < 8 ->
  exists fields out,
    let entry m :=
      {| logrus.Data := fields; logrus.Time := now;
         logrus.Entry_Level := logrus.Method_Level m; logrus.Message := out |} in
    (level = LogLevelDebug -> calls = [Entry_call fields logrus.Debug out]) /\
    (level = LogLevelInfo -> calls = [Entry_call fields logrus.Info out]) /\
    (level = LogLevelNotice \/ level = LogLevelWarning ->
     calls = [Entry_call fields logrus.Warn out]) /\
    (level = LogLevelError -> calls = [Entry_call fields logrus.Error out]) /\
    (level = LogLevelCritical ->
     calls = [Entry_call fields logrus.Fatal out] /\
     run (Some logger) now calls =
       (Entry_log logger (entry logrus.Fatal) ++ [os_Exit 1])%list) /\
    (level = LogLevelEmergency \/ level = LogLevelAlert ->
     calls = [Entry_call fields logrus.Panic out] /\
     run (Some logger) now calls =
       (Entry_log logger (entry logrus.Panic) ++ [panic out])%list) /\
    (forall m Config0,
       logger = init JSON Config0 ->
       (Config_UseJSONLog Config0 = false ->
        Entry_log logger (entry m) =
          [Write logrus.log_Writer
             (fst (logrus.Logger_Formatter logger (entry m)))]) /\
       (Config_UseJSONLog Config0 = true ->
        forall serialized,
          JSON (entry m) = (serialized, None) ->
          Entry_log logger (entry m) = [Write logrus.log_Writer serialized])).
Proof.
  intros calls Hlevel. subst calls. rewrite LogPrintf_logger.
  exists (add_items (subject_fields o) args),
         (if negb (Config_UseJSONLog Config)
          then fmt_v o +:+ ": " +:+ Sprintf text args
          else Sprintf text args).
  split; [|split; [|split; [|split; [|split; [|split]]]]].
  - intros ->. reflexivity.
  - intros ->. reflexivity.
  - intros [-> | ->]; reflexivity.
  - intros ->. reflexivity.
  - intros ->. change (level_method LogLevelCritical) with (Some logrus.Fatal).
    cbv iota beta. rewrite run_one. split; reflexivity.
  - intros [-> | ->];
      [change (level_method LogLevelEmergency) with (Some logrus.Panic)
      |change (level_method LogLevelAlert) with (Some logrus.Panic)];
      cbv iota beta; rewrite run_one; split; reflexivity.
  - intros m Config0 ->. split.
    + intros Hjson. apply Entry_log_init_text; [exact Hjson | by destruct m].
    + intros Hjson serialized Hbytes.
      rewrite Entry_log_init_JSON; [by rewrite Hbytes | exact Hjson |].
      by destruct m.
Qed.

Lemma LogPrintf_routing_witness :
  (exists fields out,
     LogPrintf sample.Sprintf sample.plain
       (Some (init sample.JSON sample.plain)) LogLevelCritical sample.remote
       "disk full" [] = [Entry_call fields logrus.Fatal out]) /\
  run (Some (init sample.JSON sample.plain)) sample.instant
    (LogPrintf sample.Sprintf sample.plain
       (Some (init sample.JSON sample.plain)) LogLevelCritical sample.remote
       "disk full" []) =
    [Write logrus.log_Writer
       ("2021-03-04 05:06:07 FATAL  : remote:: disk full" +:+ LF);
     os_Exit 1] /\
  run (Some (init sample.JSON sample.json)) sample.instant
    (LogPrintf sample.Sprintf sample.json
       (Some (init sample.JSON sample.json)) LogLevelAlert sample.remote
       "disk full" []) =
    [Write logrus.log_Writer "disk full"; panic "disk full"].
Proof.
  split; [|split].
  - destruct (LogPrintf_routing sample.Sprintf sample.JSON sample.plain
                (init sample.JSON sample.plain) LogLevelCritical sample.remote
                "disk full" [] sample.instant eq_refl)
      as (fields & out & _ & _ & _ & _ & Hfatal & _ & _).
    exists fields, out. exact (proj1 (Hfatal eq_refl)).
  - destruct (LogPrintf_routing sample.Sprintf sample.JSON sample.plain
                (init sample.JSON sample.plain) LogLevelCritical sample.remote
                "disk full" [] sample.instant eq_refl)
      as (fields & out & _ & _ & _ & _ & Hfatal & _ & Hinit).
    destruct (Hfatal eq_refl) as [Hcall Hrun].
    rewrite Hrun,
      (proj1 (Hinit logrus.Fatal sample.plain eq_refl) eq_refl).
    injection Hcall as <- <-. reflexivity.
  - destruct (LogPrintf_routing sample.Sprintf sample.JSON sample.json
                (init sample.JSON sample.json) LogLevelAlert sample.remote
                "disk full" [] sample.instant eq_refl)
      as (fields & out & _ & _ & _ & _ & _ & Hpanic & Hinit).
    destruct (Hpanic (or_intror eq_refl)) as [Hcall Hrun].
    rewrite Hrun,
      (proj2 (Hinit logrus.Panic sample.json eq_refl) eq_refl "disk full").
    + injection Hcall as <- <-. reflexivity.
    + injection Hcall as <- <-. reflexivity.
Defined.

(** * Further properties of the file *)

(** ** Names and levels *)

Lemma append_char_inj (s1 s2 : string) (c : ascii) :
  s1 +:+ String c "" = s2 +:+ String c "" -> s1 = s2.
Proof.
  revert s2. induction s1 as [|a s1 IH]; intros [|b s2]; simpl; intros H.
  - reflexivity.
  - injection H as _ H. by destruct s2.
  - injection H as _ H. by destruct s1.
  - injection H as -> H. f_equal. by apply IH.
Qed.

Lemma fmt_d_inj (n m : N) : fmt_d n = fmt_d m -> n = m.
Proof.
  intros H. pose proof (atoi_fmt_d n) as Hn. rewrite H, atoi_fmt_d in Hn.
  by injection Hn.
Qed.

(** No name of the table is a placeholder. *)
Lemma table_name_not_placeholder (i : nat) (x : string) :
  logLevelToString !! i <> Some ("LogLevel(" +:+ x).
Proof.
  do 8 (destruct i as [|i]; [discriminate|]). discriminate.
Qed.

Lemma index_lt_8 (L : LogLevel) (s : string) :
  index logLevelToString L = Some s -> L < 8.
Proof.
  unfold index. intros H. apply lookup_lt_Some in H. simpl in H. lia.
Qed.

(** Parsing and then naming: when [Set] succeeds, the level it stores is one
    of the eight defined levels, and [String] of that level is the string
    that was parsed. *)
Theorem LogLevel_String_Set_round_trip (l L : LogLevel) (s : string) :
  LogLevel_Set l s = (L, None) ->
  L < 8 /\ LogLevel_String L = Some s.
Proof.
  intros H. apply LogLevel_Set_ok in H.
  pose proof (index_lt_8 L s H) as HL. split; [exact HL|].
  by rewrite (LogLevel_String_in_range L HL).
Qed.

Lemma LogLevel_String_Set_round_trip_witness :
  LogLevelWarning < 8 /\ LogLevel_String LogLevelWarning = Some "WARNING".
Proof.
  apply (LogLevel_String_Set_round_trip LogLevelDebug LogLevelWarning "WARNING").
  reflexivity.
Defined.

(** [String] tells every two levels apart, the placeholders of the values
    above [LogLevelDebug] included. *)
Theorem LogLevel_String_injective (l1 l2 : LogLevel) :
  LogLevel_String l1 = LogLevel_String l2 -> l1 = l2.
Proof.
  destruct (N.lt_ge_cases l1 8) as [H1|H1], (N.lt_ge_cases l2 8) as [H2|H2].
  - rewrite !LogLevel_String_in_range by done. unfold index. intros H.
    destruct (logLevelToString !! N.to_nat l1) as [s|] eqn:E1.
    + apply N2Nat.inj.
      exact (NoDup_lookup _ _ _ s logLevelToString_NoDup E1 (eq_sym H)).
    + apply lookup_ge_None in E1. simpl in E1. lia.
  - rewrite (LogLevel_String_in_range l1 H1),
      (LogLevel_String_out_of_range l2 H2).
    intros H. by apply table_name_not_placeholder in H.
  - rewrite (LogLevel_String_out_of_range l1 H1),
      (LogLevel_String_in_range l2 H2).
    intros H. symmetry in H. by apply table_name_not_placeholder in H.
  - rewrite (LogLevel_String_out_of_range l1 H1),
      (LogLevel_String_out_of_range l2 H2).
    intros H. injection H as H. by apply append_char_inj, fmt_d_inj in H.
Qed.

Lemma LogLevel_String_injective_witness : byte_of_int 261 = LogLevelNotice.
Proof.
  apply (LogLevel_String_injective (byte_of_int 261) LogLevelNotice).
  reflexivity.
Defined.

(** The round trip stops at [LogLevelDebug]: the placeholder that [String]
    gives a value above it is no name for [Set], which returns the error and
    leaves the receiver as it was. *)
Theorem LogLevel_Set_placeholder (l r : LogLevel) (name : string) :
  8 <= l ->
  LogLevel_String l = Some name ->
  LogLevel_Set r name = (r, Some (errors_Errorf "Unknown log level %q" name)).
Proof.
  intros Hl Hname. rewrite (LogLevel_String_out_of_range l Hl) in Hname.
  injection Hname as <-. apply LogLevel_Set_fail.
  intros Hin. apply list_elem_of_lookup_1 in Hin as [i Hi].
  by apply table_name_not_placeholder in Hi.
Qed.

Lemma LogLevel_Set_placeholder_witness :
  LogLevel_Set LogLevelNotice "LogLevel(8)" =
    (LogLevelNotice, Some (errors_Errorf "Unknown log level %q" "LogLevel(8)")).
Proof.
  apply (LogLevel_Set_placeholder 8 LogLevelNotice "LogLevel(8)").
  - discriminate.
  - reflexivity.
Defined.

(** ** When a call is made *)

Lemma append_nil_r (s : string) : s +:+ "" = s.
Proof.
  induction s as [|c s IH]; [done|]. exact (f_equal (String c) IH).
Qed.

Lemma append_assoc (s1 s2 s3 : string) :
  s1 +:+ s2 +:+ s3 = (s1 +:+ s2) +:+ s3.
Proof.
  induction s1 as [|c s1 IH]; [done|]. exact (f_equal (String c) IH).
Qed.

Lemma LogPrintf_emits Sprintf Config logger level o text args :
  LogPrintf Sprintf Config logger level o text args <> [] <->
  logger = None \/ level < 8.
Proof.
  destruct logger as [logger|].
  - rewrite LogPrintf_logger. destruct (N.lt_ge_cases level 8) as [H|H].
    + destruct (level_method_defined level H) as [m ->].
      split; [by right | done].
    + rewrite (level_method_undefined level H).
      split; [done | intros [?|?]; [done | lia]].
  - rewrite LogPrintf_fallback. split; [by left | done].
Qed.

Lemma LogLevelPrintf_emits Sprintf Config logger level o text args :
  LogLevelPrintf Sprintf Config logger level o text args <> [] <->
  level <= Config_LogLevel Config /\ (logger = None \/ level < 8).
Proof.
  unfold LogLevelPrintf.
  destruct (N.leb_spec level (Config_LogLevel Config)) as [Hle|Hgt].
  - rewrite LogPrintf_emits. split; [by split | by intros [_ ?]].
  - split; [done | intros [? _]; lia].
Qed.

(** [LogPrintf] and [LogLevelPrintf] make one call or none.  [LogPrintf]
    makes one exactly when there is no logger or the level is one of the
    eight defined ones; [LogLevelPrintf] asks in addition that the level be
    at most the threshold. *)
Theorem LogPrintf_at_most_one_call
    (Sprintf : string -> list any -> string) (Config : ConfigInfo)
    (logger : option logrus.Logger) (level : LogLevel) (o : any)
    (text : string) (args : list any) :
  (length (LogPrintf Sprintf Config logger level o text args) <= 1)%nat /\
  (length (LogLevelPrintf Sprintf Config logger level o text args) <= 1)%nat /\
  (LogPrintf Sprintf Config logger level o text args <> [] <->
   logger = None \/ level < 8) /\
  (LogLevelPrintf Sprintf Config logger level o text args <> [] <->
   level <= Config_LogLevel Config /\ (logger = None \/ level < 8)).
Proof.
  assert (length (LogPrintf Sprintf Config logger level o text args) <= 1)%nat
    as Hone.
  { destruct logger as [logger|].
    - rewrite LogPrintf_logger. destruct (level_method level); simpl; lia.
    - rewrite LogPrintf_fallback. simpl. lia. }
  split; [exact Hone | split; [|split]].
  - unfold LogLevelPrintf. destruct (_ <=? _); [exact Hone | simpl; lia].
  - apply LogPrintf_emits.
  - apply LogLevelPrintf_emits.
Qed.

(** A value above [LogLevelDebug] matches no case of the switch: with a
    logger nothing is logged, under any threshold, while without one the
    fallback prints the placeholder, unpadded, before the message. *)
Theorem LogPrintf_undefined_level
    (Sprintf : string -> list any -> string) (Config : ConfigInfo)
    (logger : logrus.Logger) (level : LogLevel) (o : any) (text : string)
    (args : list any) :
  8 <= level ->
  LogPrintf Sprintf Config (Some logger) level o text args = [] /\
  LogLevelPrintf Sprintf Config (Some logger) level o text args = [] /\
  LogPrintf Sprintf Config None level o text args =
    [log_Output 4
       ("LogLevel(" +:+ fmt_d level +:+ "): " +:+
        (if is_nil o then Sprintf text args
         else fmt_v o +:+ ": " +:+ Sprintf text args))].
Proof.
  intros Hlevel.
  assert (LogPrintf Sprintf Config (Some logger) level o text args = [])
    as Hnone.
  { rewrite LogPrintf_logger. by rewrite (level_method_undefined level Hlevel). }
  split; [exact Hnone | split].
  - unfold LogLevelPrintf. rewrite Hnone. by destruct (_ <=? _).
  - rewrite LogPrintf_fallback. unfold LogPrint, fmt_s_LogLevel.
    rewrite (LogLevel_String_out_of_range level Hlevel).
    unfold fmt_pad_right. simpl spaces.
    rewrite append_nil_r, <- !append_assoc. by destruct (is_nil o).
Qed.

Lemma LogPrintf_undefined_level_witness :
  LogPrintf sample.Sprintf sample.plain
    (Some (init sample.JSON sample.plain)) 9 sample.remote "lost" [] = [] /\
  LogPrintf sample.Sprintf sample.plain None 9 sample.remote "lost" [] =
    [log_Output 4 "LogLevel(9): remote:: lost"].
Proof.
  destruct (LogPrintf_undefined_level sample.Sprintf sample.plain
              (init sample.JSON sample.plain) 9 sample.remote "lost" [])
    as (Hlogger & _ & Hfallback).
  - discriminate.
  - split; [exact Hlogger | exact Hfallback].
Defined.

(** Raising the threshold never silences a call, and a call that is made at
    one level is made at every more severe level under the same
    threshold. *)
Theorem LogLevelPrintf_monotone
    (Sprintf : string -> list any -> string) (Config Config' : ConfigInfo)
    (logger : option logrus.Logger) (level level' : LogLevel) (o : any)
    (text : string) (args : list any) :
  LogLevelPrintf Sprintf Config logger level o text args <> [] ->
  (Config_LogLevel Config <= Config_LogLevel Config' ->
   LogLevelPrintf Sprintf Config' logger level o text args <> []) /\
  (level' <= level ->
   LogLevelPrintf Sprintf Config logger level' o text args <> []).
Proof.
  rewrite !LogLevelPrintf_emits. intros [Hle Hcall]. split.
  - intros Hraise. split; [lia | exact Hcall].
  - intros Hsevere. split; [lia|]. destruct Hcall as [->|H]; [by left|].
    right. lia.
Qed.

Lemma LogLevelPrintf_monotone_witness :
  LogLevelPrintf sample.Sprintf
    {| Config_LogLevel := LogLevelDebug;
       Config_UseJSONLog := false; Config_EnableLogColors := false |}
    None LogLevelNotice nil_interface "copied" [] <> [] /\
  LogLevelPrintf sample.Sprintf sample.plain None LogLevelError
    nil_interface "copied" [] <> [].
Proof.
  destruct (LogLevelPrintf_monotone sample.Sprintf sample.plain
              {| Config_LogLevel := LogLevelDebug;
                 Config_UseJSONLog := false; Config_EnableLogColors := false |}
              None LogLevelNotice LogLevelError nil_interface "copied" [])
    as [Hraise Hsevere].
  - discriminate.
  - split; [apply Hraise | apply Hsevere]; discriminate.
Defined.

(** ** What the call carries *)

Lemma add_items_is_Some (fields : logrus.Fields) (args : list any) (k : string) :
  is_Some (add_items fields args !! k) <->
  is_Some (fields !! k) \/ existsb (annotates k) args = true.
Proof.
  revert fields. induction args as [|a args IH]; intros fields.
  - simpl. split; [by left | by intros [?|?]].
  - destruct a as [| |item|]; simpl; rewrite IH; try done.
    rewrite orb_true_iff, bool_decide_eq_true.
    destruct (decide (key item = k)) as [<-|Hne].
    + rewrite lookup_insert_eq. split; [intros _; right; by left|].
      intros _. left. by eexists.
    + rewrite lookup_insert_ne by done.
      split; [intros [?|?]; [by left | right; by right]|].
      intros [?|[?|?]]; [by left | done | by right].
Qed.

Lemma subject_fields_is_Some (o : any) (k : string) :
  is_Some (subject_fields o !! k) <->
  o <> nil_interface /\ (k = "object" \/ k = "objectType").
Proof.
  unfold subject_fields. destruct o; simpl;
    try (rewrite lookup_empty; split;
         [by intros [? ?] | by intros [? _]]).
  all: destruct (decide (k = "objectType")) as [->|H1];
    [rewrite lookup_insert_eq; split; [intros _; split; [done | by right]
                                       | intros _; by eexists]|].
  all: rewrite lookup_insert_ne by done.
  all: destruct (decide (k = "object")) as [->|H2];
    [rewrite lookup_insert_eq; split; [intros _; split; [done | by left]
                                       | intros _; by eexists]|].
  all: rewrite lookup_insert_ne, lookup_empty by done.
  all: split; [by intros [? ?] | intros [_ [?|?]]; done].
Qed.

(** With a logger, the mapping of the call has a key exactly when a subject
    gives it ([object] and [objectType], for a subject that is not nil) or an
    annotation among [args] carries it: no other argument adds a field.
    Where nothing annotates under them, [object] holds [%+v] of the subject
    and [objectType] its [%T]. *)
Theorem LogPrintf_fields
    (Sprintf : string -> list any -> string) (Config : ConfigInfo)
    (logger : logrus.Logger) (level : LogLevel) (o : any) (text : string)
    (args : list any) :
  level < 8 ->
  exists fields m out,
    LogPrintf Sprintf Config (Some logger) level o text args =
      [Entry_call fields m out] /\
    (forall k,
       is_Some (fields !! k) <->
       (o <> nil_interface /\ (k = "object" \/ k = "objectType")) \/
       existsb (annotates k) args = true) /\
    (o <> nil_interface ->
     existsb (annotates "object") args = false ->
     fields !! "object" = Some (a_string (fmt_plus_v o))) /\
    (o <> nil_interface ->
     existsb (annotates "objectType") args = false ->
     fields !! "objectType" = Some (a_string (fmt_T o))).
Proof.
  intros Hlevel. rewrite LogPrintf_logger.
  destruct (level_method_defined level Hlevel) as [m ->].
  eexists _, m, _. split; [reflexivity|].
  assert (forall k, existsb (annotates k) args = false ->
                    forallb (fun a => negb (annotates k a)) args = true)
    as Hnone.
  { intros k. induction args as [|a args IH]; [done|]. simpl.
    intros H. apply orb_false_iff in H as [-> H]. by apply IH. }
  split; [|split].
  - intros k. by rewrite add_items_is_Some, subject_fields_is_Some.
  - intros Ho Hk. rewrite (add_items_other _ args _ (Hnone _ Hk)).
    unfold subject_fields. by destruct o.
  - intros Ho Hk. rewrite (add_items_other _ args _ (Hnone _ Hk)).
    unfold subject_fields. by destruct o.
Qed.

Lemma LogPrintf_fields_witness :
  exists fields m out,
    LogPrintf sample.Sprintf sample.json (Some (init sample.JSON sample.json))
      LogLevelInfo sample.remote "copied"
      [ a_string "x"; an_item (LogValue "bytes" (a_string "1024")) ] =
      [Entry_call fields m out] /\
    fields !! "x" = None /\
    fields !! "objectType" = Some (a_string "*local.Fs").
Proof.
  destruct (LogPrintf_fields sample.Sprintf sample.json
              (init sample.JSON sample.json) LogLevelInfo sample.remote
              "copied"
              [ a_string "x"; an_item (LogValue "bytes" (a_string "1024")) ]
              eq_refl)
    as (fields & m & out & Hcall & Hkeys & _ & Htype).
  exists fields, m, out. split; [exact Hcall | split].
  - apply eq_None_not_Some. intros H. apply Hkeys in H as [[_ [H|H]]|H];
      discriminate.
  - apply Htype; [discriminate | reflexivity].
Defined.

(** With a logger, [UseJSONLog] changes the message of the call and nothing
    else: with JSON the message is the formatted text alone, without it the
    text after [%v] of the subject and [": "]; the method and the mapping
    are the same. *)
Theorem UseJSONLog_message
    (Sprintf : string -> list any -> string) (Config Config' : ConfigInfo)
    (logger : logrus.Logger) (level : LogLevel) (o : any) (text : string)
    (args : list any) :
  Config_UseJSONLog Config = true ->
  Config_UseJSONLog Config' = false ->
  level < 8 ->
  exists fields m,
    LogPrintf Sprintf Config (Some logger) level o text args =
      [Entry_call fields m (Sprintf text args)] /\
    LogPrintf Sprintf Config' (Some logger) level o text args =
      [Entry_call fields m (fmt_v o +:+ ": " +:+ Sprintf text args)].
Proof.
  intros Hjson Htext Hlevel. rewrite !LogPrintf_logger, Hjson, Htext.
  destruct (level_method_defined level Hlevel) as [m ->].
  by eexists _, m.
Qed.

Lemma UseJSONLog_message_witness :
  exists fields m,
    LogPrintf sample.Sprintf sample.json (Some (init sample.JSON sample.json))
      LogLevelError sample.remote "disk full" [] =
      [Entry_call fields m "disk full"] /\
    LogPrintf sample.Sprintf sample.plain (Some (init sample.JSON sample.json))
      LogLevelError sample.remote "disk full" [] =
      [Entry_call fields m "remote:: disk full"].
Proof.
  apply (UseJSONLog_message sample.Sprintf sample.json sample.plain
           (init sample.JSON sample.json) LogLevelError sample.remote
           "disk full" []); reflexivity.
Defined.

(** ** The threshold as [Set] stores it *)

Ltac settle_name_case :=
  split; intros Hx;
  first
    [ by (apply (bool_decide_unpack _); vm_compute)
    | reflexivity
    | split; [simpl; lia | right; simpl; lia]
    | exfalso;
      first
        [ discriminate Hx
        | destruct Hx as [Hx _]; simpl in Hx; lia
        | apply (bool_decide_pack _) in Hx; vm_compute in Hx; exact Hx ] ].

(** A threshold parsed by [Set] from the name [s] lets [Errorf] through
    exactly for the names ERROR to DEBUG, [Logf] for NOTICE, INFO and DEBUG,
    [Infof] for INFO and DEBUG, and [Debugf] for DEBUG alone: under
    EMERGENCY, ALERT and CRITICAL even [Errorf] is silent. *)
Theorem Set_threshold_wrappers
    (Sprintf : string -> list any -> string) (Config : ConfigInfo)
    (logger : option logrus.Logger) (l : LogLevel) (s : string) (o : any)
    (text : string) (args : list any) :
  LogLevel_Set l s = (Config_LogLevel Config, None) ->
  (Errorf Sprintf Config logger o text args <> [] <->
   s ∈ ["ERROR"; "WARNING"; "NOTICE"; "INFO"; "DEBUG"]) /\
  (Logf Sprintf Config logger o text args <> [] <->
   s ∈ ["NOTICE"; "INFO"; "DEBUG"]) /\
  (Infof Sprintf Config logger o text args <> [] <-> s ∈ ["INFO"; "DEBUG"]) /\
  (Debugf Sprintf Config logger o text args <> [] <-> s = "DEBUG").
Proof.
  intros Hset. apply LogLevel_Set_ok in Hset. unfold index in Hset.
  change (Errorf Sprintf Config logger o text args)
    with (LogLevelPrintf Sprintf Config logger LogLevelError o text args).
  change (Logf Sprintf Config logger o text args)
    with (LogLevelPrintf Sprintf Config logger LogLevelNotice o text args).
  change (Infof Sprintf Config logger o text args)
    with (LogLevelPrintf Sprintf Config logger LogLevelInfo o text args).
  change (Debugf Sprintf Config logger o text args)
    with (LogLevelPrintf Sprintf Config logger LogLevelDebug o text args).
  rewrite !LogLevelPrintf_emits.
  unfold LogLevelError, LogLevelNotice, LogLevelInfo, LogLevelDebug.
  rewrite <- (N2Nat.id (Config_LogLevel Config)).
  destruct (N.to_nat (Config_LogLevel Config)) as [|[|[|[|[|[|[|[|n]]]]]]]];
    simpl in Hset; [..|discriminate]; injection Hset as <-;
    (split; [|split; [|split]]); settle_name_case.
Qed.

Lemma Set_threshold_wrappers_witness :
  Errorf sample.Sprintf
    {| Config_LogLevel := LogLevelCritical;
       Config_UseJSONLog := false; Config_EnableLogColors := false |}
    None nil_interface "disk full" [] = [] /\
  Logf sample.Sprintf sample.plain None nil_interface "copied" [] <> [].
Proof.
  split.
  - destruct (Errorf sample.Sprintf
                {| Config_LogLevel := LogLevelCritical;
                   Config_UseJSONLog := false;
                   Config_EnableLogColors := false |}
                None nil_interface "disk full" []) as [|c calls] eqn:E;
      [reflexivity | exfalso].
    pose proof (proj1 (proj1 (Set_threshold_wrappers sample.Sprintf
                  {| Config_LogLevel := LogLevelCritical;
                     Config_UseJSONLog := false;
                     Config_EnableLogColors := false |}
                  None LogLevelDebug "CRITICAL" nil_interface "disk full" []
                  eq_refl))) as H.
    rewrite E in H. specialize (H ltac:(discriminate)).
    apply (bool_decide_pack _) in H. vm_compute in H. exact H.
  - apply (proj2 (proj1 (proj2 (Set_threshold_wrappers sample.Sprintf
             sample.plain None LogLevelDebug "NOTICE" nil_interface "copied" []
             eq_refl)))).
    apply (bool_decide_unpack _). vm_compute. exact I.
Defined.

(** ** The subject of a directory *)

(** [LogDirName] gives a directory that is not the root as the string of its
    name, whatever the [Fs]: it prints as the name, its type is [string], and
    the fallback line starts with the name; the root gives the [Fs] itself.
    The result is nil only for the root of a nil [Fs]. *)
Theorem LogDirName_subject
    (Sprintf : string -> list any -> string) (Config : ConfigInfo)
    (level : LogLevel) (f : any) (dir : string) (text : string)
    (args : list any) :
  (is_nil (LogDirName f dir) = true <-> dir = "" /\ f = nil_interface) /\
  LogDirName f "" = f /\
  (dir <> "" ->
   fmt_v (LogDirName f dir) = dir /\
   fmt_plus_v (LogDirName f dir) = dir /\
   fmt_T (LogDirName f dir) = "string" /\
   LogPrintf Sprintf Config None level (LogDirName f dir) text args =
     LogPrint level (dir +:+ ": " +:+ Sprintf text args)).
Proof.
  unfold LogDirName. split; [|split].
  - destruct (String.eqb_spec dir "") as [->|Hdir]; simpl.
    + destruct f; simpl; split; try done; by intros [_ ?].
    + split; [done | by intros [? _]].
  - reflexivity.
  - intros Hdir. destruct (String.eqb_spec dir "") as [?|_]; [done|].
    repeat split; reflexivity.
Qed.

Lemma LogDirName_subject_witness :
  fmt_T (LogDirName sample.remote "backup") = "string" /\
  LogPrintf sample.Sprintf sample.plain None LogLevelNotice
    (LogDirName sample.remote "backup") "made" [] =
    [log_Output 4 "NOTICE: backup: made"].
Proof.
  destruct (proj2 (proj2 (LogDirName_subject sample.Sprintf sample.plain
                            LogLevelNotice sample.remote "backup" "made" [])))
    as (_ & _ & HT & Hline).
  - discriminate.
  - split; [exact HT | exact Hline].
Defined.

(** ** Escape codes and the line that is written *)

Lemma has_ESC_app (s1 s2 : string) :
  has_ESC (s1 +:+ s2) = has_ESC s1 || has_ESC s2.
Proof.
  induction s1 as [|c s1 IH]; [done|].
  change (has_ESC (String c s1 +:+ s2))
    with (Ascii.eqb c (ascii_of_N 27) || has_ESC (s1 +:+ s2)).
  rewrite IH. simpl. by rewrite orb_assoc.
Qed.

Lemma has_ESC_zeros (n : nat) : has_ESC (time.zeros n) = false.
Proof. induction n as [|n IH]; [done | exact IH]. Qed.

Lemma has_ESC_spaces (n : nat) : has_ESC (spaces n) = false.
Proof. induction n as [|n IH]; [done | exact IH]. Qed.

Lemma has_ESC_fmt_d (n : N) : has_ESC (fmt_d n) = false.
Proof.
  unfold fmt_d. induction (N.to_uint n) as [|d IH|d IH|d IH|d IH|d IH|d IH
                                            |d IH|d IH|d IH|d IH];
    [done | exact IH ..].
Qed.

Lemma has_ESC_appendInt (x : Z) (width : nat) :
  has_ESC (time.appendInt x width) = false.
Proof.
  unfold time.appendInt.
  rewrite !has_ESC_app, has_ESC_zeros, has_ESC_fmt_d.
  by destruct (x <? 0)%Z.
Qed.

Lemma has_ESC_timestamp (t : time.Time) :
  has_ESC (time.Format t "2006-01-02 15:04:05") = false.
Proof.
  change (time.Format t "2006-01-02 15:04:05")
    with (time.appendInt (time.Year t) 4 +:+ "-" +:+
          time.appendInt (Z.of_N (time.Month t)) 2 +:+ "-" +:+
          time.appendInt (Z.of_N (time.Day t)) 2 +:+ " " +:+
          time.appendInt (Z.of_N (time.Hour t)) 2 +:+ ":" +:+
          time.appendInt (Z.of_N (time.Minute t)) 2 +:+ ":" +:+
          time.appendInt (Z.of_N (time.Second t)) 2 +:+ "").
  rewrite !has_ESC_app, !has_ESC_appendInt. reflexivity.
Qed.

Lemma has_ESC_level_name (level : logrus.Level) :
  has_ESC (fmt_pad_right 6 (strings_ToUpper (logrus.Level_String level)))
  = false.
Proof.
  unfold logrus.Level_String.
  repeat match goal with
         | |- context [(?a =? ?b)] => destruct (a =? b)
         end; reflexivity.
Qed.

Lemma Format_plain_bytes JSON Config entry :
  Config_UseJSONLog Config = false ->
  Config_EnableLogColors Config = false ->
  logrus.Logger_Formatter (init JSON Config) entry =
    (time.Format (logrus.Time entry) "2006-01-02 15:04:05" +:+ " " +:+
     fmt_pad_right 6
       (strings_ToUpper (logrus.Level_String (logrus.Entry_Level entry))) +:+
     " : " +:+ logrus.Message entry +:+ LF, None).
Proof.
  intros Hjson Hplain. rewrite (init_text_Formatter JSON Config Hjson).
  unfold MyJSONFormatter_Format. simpl. by rewrite Hplain.
Qed.

Lemma Format_colored_bytes JSON Config entry :
  Config_UseJSONLog Config = false ->
  Config_EnableLogColors Config = true ->
  logrus.Logger_Formatter (init JSON Config) entry =
    (time.Format (logrus.Time entry) "2006-01-02 15:04:05" +:+ " " +:+
     ESC +:+ "[" +:+ fmt_d (levelColor (logrus.Entry_Level entry)) +:+ "m" +:+
     fmt_pad_right 6
       (strings_ToUpper (logrus.Level_String (logrus.Entry_Level entry))) +:+
     ESC +:+ "[0m" +:+ " : " +:+ logrus.Message entry +:+ LF, None).
Proof.
  intros Hjson Hcolors. rewrite (init_text_Formatter JSON Config Hjson).
  unfold MyJSONFormatter_Format. simpl. by rewrite Hcolors.
Qed.

(** Without colors the formatter adds no escape character: its output holds
    one only if the message does.  With colors the output always holds
    one. *)
Theorem Format_escape
    (JSON : logrus.Formatter) (Config Config' : ConfigInfo)
    (entry : logrus.Entry) :
  Config_UseJSONLog Config = false ->
  Config_EnableLogColors Config = false ->
  Config_UseJSONLog Config' = false ->
  Config_EnableLogColors Config' = true ->
  has_ESC (fst (logrus.Logger_Formatter (init JSON Config) entry)) =
    has_ESC (logrus.Message entry) /\
  has_ESC (fst (logrus.Logger_Formatter (init JSON Config') entry)) = true.
Proof.
  intros Hjson Hplain Hjson' Hcolors.
  rewrite (Format_plain_bytes JSON Config entry Hjson Hplain),
    (Format_colored_bytes JSON Config' entry Hjson' Hcolors).
  unfold fst.
  rewrite !has_ESC_app, !has_ESC_timestamp, !has_ESC_level_name.
  split; [|reflexivity].
  change (has_ESC " ") with false. change (has_ESC " : ") with false.
  change (has_ESC LF) with false. by rewrite orb_false_r.
Qed.

Lemma Format_escape_witness :
  has_ESC (fst (logrus.Logger_Formatter (init sample.JSON sample.plain)
                  sample.disk_full)) = has_ESC "disk full" /\
  has_ESC (fst (logrus.Logger_Formatter (init sample.JSON sample.colored)
                  sample.disk_full)) = true.
Proof.
  apply (Format_escape sample.JSON sample.plain sample.colored
           sample.disk_full); reflexivity.
Defined.

(** From the call to the bytes, on the logger that [init] builds for text
    without colors: at a defined level [LogPrintf] ends in one write to the
    log writer, of the timestamp, the name that the level has after the
    routing (DEBUG, INFO, WARNING for Notice and Warning alike, ERROR, FATAL
    for Critical, PANIC for Emergency and Alert) filled to width 6, [" : "],
    the subject, [": "], the text and a line feed; after the write Critical
    exits with status 1 and Emergency and Alert panic. *)
Theorem LogPrintf_text_line
    (Sprintf : string -> list any -> string) (JSON : logrus.Formatter)
    (Config : ConfigInfo) (level : LogLevel) (o : any) (text : string)
    (args : list any) (now : time.Time) :
  Config_UseJSONLog Config = false ->
  Config_EnableLogColors Config = false ->
  level < 8 ->
  let logger := init JSON Config in
  let message := fmt_v o +:+ ": " +:+ Sprintf text args in
  let line name :=
    Write logrus.log_Writer
      (time.Format now "2006-01-02 15:04:05" +:+ " " +:+ name +:+ " : " +:+
       message +:+ LF) in
  let events :=
    run (Some logger) now
      (LogPrintf Sprintf Config (Some logger) level o text args) in
  (level = LogLevelDebug -> events = [line "DEBUG "]) /\
  (level = LogLevelInfo -> events = [line "INFO  "]) /\
  (level = LogLevelNotice \/ level = LogLevelWarning ->
   events = [line "WARNING"]) /\
  (level = LogLevelError -> events = [line "ERROR "]) /\
  (level = LogLevelCritical -> events = [line "FATAL "; os_Exit 1]) /\
  (level = LogLevelEmergency \/ level = LogLevelAlert ->
   events = [line "PANIC "; panic message]).
Proof.
  intros Hjson Hplain Hlevel logger message line events.
  assert (forall m,
            level_method level = Some m ->
            events = exec (Some logger) now
                       (Entry_call (add_items (subject_fields o) args) m
                          message)) as Hexec.
  { intros m Hm. subst events. rewrite LogPrintf_logger, Hm, Hjson.
    apply run_one. }
  assert (forall m,
            Entry_log logger
              {| logrus.Data := add_items (subject_fields o) args;
                 logrus.Time := now;
                 logrus.Entry_Level := logrus.Method_Level m;
                 logrus.Message := message |} =
            [line (fmt_pad_right 6
                     (strings_ToUpper
                        (logrus.Level_String (logrus.Method_Level m))))])
    as Hlog.
  { intros m. subst logger.
    rewrite (Entry_log_init_text JSON Config _ Hjson) by (by destruct m).
    by rewrite (Format_plain_bytes JSON Config _ Hjson Hplain). }
  split; [|split; [|split; [|split; [|split]]]].
  - intros ->. rewrite (Hexec logrus.Debug eq_refl).
    cbv beta iota zeta delta [exec Entry_do].
    by rewrite (Hlog logrus.Debug).
  - intros ->. rewrite (Hexec logrus.Info eq_refl).
    cbv beta iota zeta delta [exec Entry_do].
    by rewrite (Hlog logrus.Info).
  - intros [-> | ->]; rewrite (Hexec logrus.Warn eq_refl);
      cbv beta iota zeta delta [exec Entry_do];
      by rewrite (Hlog logrus.Warn).
  - intros ->. rewrite (Hexec logrus.Error eq_refl).
    cbv beta iota zeta delta [exec Entry_do].
    by rewrite (Hlog logrus.Error).
  - intros ->. rewrite (Hexec logrus.Fatal eq_refl).
    cbv beta iota zeta delta [exec Entry_do].
    by rewrite (Hlog logrus.Fatal).
  - intros [-> | ->]; rewrite (Hexec logrus.Panic eq_refl);
      cbv beta iota zeta delta [exec Entry_do];
      by rewrite (Hlog logrus.Panic).
Qed.

Lemma LogPrintf_text_line_witness :
  run (Some (init sample.JSON sample.plain)) sample.instant
    (LogPrintf sample.Sprintf sample.plain
       (Some (init sample.JSON sample.plain)) LogLevelNotice sample.remote
       "copied" []) =
  [Write logrus.log_Writer
     ("2021-03-04 05:06:07 WARNING : remote:: copied" +:+ LF)].
Proof.
  destruct (LogPrintf_text_line sample.Sprintf sample.JSON sample.plain
              LogLevelNotice sample.remote "copied" [] sample.instant
              eq_refl eq_refl eq_refl) as (_ & _ & Hwarn & _).
  rewrite Hwarn by (by left). reflexivity.
Defined.
